(** * Greppo: raster ingestion and overlay viewport of [GreppoAppProxy]

    A shallow embedding of [src/library/src/greppo/greppo.py].  The proxy
    object is a record of lists, its methods are computations in a state and
    exception monad, and the libraries the methods call (rasterio, uuid,
    geopandas, PIL, the component classes) are a record of collaborators
    acting on an abstract external world.  A ghost log records which
    handles the code opens and closes and what it hands to the image
    writer. *)

From Stdlib Require Import List String Ascii ZArith QArith Qreduction Qabs Lia Bool.
From Stdlib.Strings Require Import Byte.
Import ListNotations.

Local Open Scope string_scope.
Local Open Scope list_scope.

(** * Numbers

    Coordinates are Python floats.  The code only adds, multiplies and
    divides them, so the model is written over any carrier with these
    operations; [of_Q] reads a numeric literal. *)

Class Num (A : Type) : Type := {
  of_Q : Q -> A;
  nadd : A -> A -> A;
  nmul : A -> A -> A;
  ndiv : A -> A -> A
}.

Definition of_Z {A} `{Num A} (z : Z) : A := of_Q (inject_Z z).

(** Exact rationals in lowest terms: the instance used for concrete runs. *)
#[export] Instance Num_Q : Num Q := {
  of_Q := Qred;
  nadd := fun x y => Qred (x + y);
  nmul := fun x y => Qred (x * y);
  ndiv := fun x y => Qred (x / y)
}.

(** * Affine transforms (package [affine]) *)

Module Affine.

Record t (A : Type) : Type := mk { a : A; b : A; c : A; d : A; e : A; f : A }.
Arguments mk {A}.
Arguments a {A}.
Arguments b {A}.
Arguments c {A}.
Arguments d {A}.
Arguments e {A}.
Arguments f {A}.

(** [transform * (vx, vy)]:
    [(vx * sa + vy * sb + sc, vx * sd + vy * se + sf)]. *)
Definition mul_point {A} `{Num A} (m : t A) (p : A * A) : A * A :=
  let '(vx, vy) := p in
  (nadd (nadd (nmul vx (a m)) (nmul vy (b m))) (c m),
   nadd (nadd (nmul vx (d m)) (nmul vy (e m))) (f m)).

(** Identity scaling with zero translation. *)
Definition identity {A} `{Num A} : t A :=
  mk (of_Z 1) (of_Z 0) (of_Z 0) (of_Z 0) (of_Z 1) (of_Z 0).

End Affine.

(** * Base64 ([base64.b64encode], RFC 4648) *)

Module Base64.

(** Six bits, most significant first. *)
Definition sextet : Type := (bool * bool * bool * bool * bool * bool)%type.

Definition sextet_index (s : sextet) : nat :=
  let '(b5, b4, b3, b2, b1, b0) := s in
  let v (x : bool) (w : nat) := if x then w else 0%nat in
  (v b5 32 + v b4 16 + v b3 8 + v b2 4 + v b1 2 + v b0 1)%nat.

Definition alphabet : list ascii :=
  list_ascii_of_string
    "ABCDEFGHIJKLMNOPQRSTUVWXYZabcdefghijklmnopqrstuvwxyz0123456789+/".

Definition pad : ascii := "="%char.

Definition encode_sextet (s : sextet) : ascii :=
  nth (sextet_index s) alphabet pad.

Definition sextet_of_nat (n : nat) : sextet :=
  (Nat.testbit n 5, Nat.testbit n 4, Nat.testbit n 3,
   Nat.testbit n 2, Nat.testbit n 1, Nat.testbit n 0).

Fixpoint index_of (x : ascii) (l : list ascii) : option nat :=
  match l with
  | [] => None
  | y :: l' =>
      if Ascii.eqb x y then Some 0%nat
      else option_map S (index_of x l')
  end.

Definition decode_char (ch : ascii) : option sextet :=
  option_map sextet_of_nat (index_of ch alphabet).

(** The bits of a byte, most significant first. *)
Definition bits (x : byte) : bool * bool * bool * bool * bool * bool * bool * bool :=
  let '(b0, (b1, (b2, (b3, (b4, (b5, (b6, b7))))))) := Byte.to_bits x in
  (b7, b6, b5, b4, b3, b2, b1, b0).

Definition of_bits (m : bool * bool * bool * bool * bool * bool * bool * bool) : byte :=
  let '(b7, b6, b5, b4, b3, b2, b1, b0) := m in
  Byte.of_bits (b0, (b1, (b2, (b3, (b4, (b5, (b6, b7))))))).

(** Three bytes make four sextets. *)
Definition group3 (x y z : byte) : sextet * sextet * sextet * sextet :=
  let '(x7, x6, x5, x4, x3, x2, x1, x0) := bits x in
  let '(y7, y6, y5, y4, y3, y2, y1, y0) := bits y in
  let '(z7, z6, z5, z4, z3, z2, z1, z0) := bits z in
  ((x7, x6, x5, x4, x3, x2), (x1, x0, y7, y6, y5, y4),
   (y3, y2, y1, y0, z7, z6), (z5, z4, z3, z2, z1, z0)).

Definition ungroup3 (s0 s1 s2 s3 : sextet) : byte * byte * byte :=
  let '(x7, x6, x5, x4, x3, x2) := s0 in
  let '(x1, x0, y7, y6, y5, y4) := s1 in
  let '(y3, y2, y1, y0, z7, z6) := s2 in
  let '(z5, z4, z3, z2, z1, z0) := s3 in
  (of_bits (x7, x6, x5, x4, x3, x2, x1, x0),
   of_bits (y7, y6, y5, y4, y3, y2, y1, y0),
   of_bits (z7, z6, z5, z4, z3, z2, z1, z0)).

Definition zero : byte := "000"%byte.

Fixpoint encode_chars (bs : list byte) : list ascii :=
  match bs with
  | [] => []
  | [x] =>
      let '(s0, s1, _, _) := group3 x zero zero in
      [encode_sextet s0; encode_sextet s1; pad; pad]
  | [x; y] =>
      let '(s0, s1, s2, _) := group3 x y zero in
      [encode_sextet s0; encode_sextet s1; encode_sextet s2; pad]
  | x :: y :: z :: rest =>
      let '(s0, s1, s2, s3) := group3 x y z in
      encode_sextet s0 :: encode_sextet s1 :: encode_sextet s2
        :: encode_sextet s3 :: encode_chars rest
  end.

(** [base64.b64encode(bs).decode()]. *)
Definition b64encode (bs : list byte) : string :=
  string_of_list_ascii (encode_chars bs).

Definition is_nil {X} (l : list X) : bool :=
  match l with [] => true | _ => false end.

(** Decoding of canonical RFC 4648 text; [None] on anything else. *)
Fixpoint decode_chars (cs : list ascii) : option (list byte) :=
  match cs with
  | [] => Some []
  | c0 :: c1 :: c2 :: c3 :: rest =>
      match decode_char c0, decode_char c1 with
      | Some s0, Some s1 =>
          if Ascii.eqb c2 pad then
            if Ascii.eqb c3 pad && is_nil rest then
              let '(x, _, _) := ungroup3 s0 s1 (sextet_of_nat 0) (sextet_of_nat 0) in
              Some [x]
            else None
          else
            match decode_char c2 with
            | Some s2 =>
                if Ascii.eqb c3 pad then
                  if is_nil rest then
                    let '(x, y, _) := ungroup3 s0 s1 s2 (sextet_of_nat 0) in
                    Some [x; y]
                  else None
                else
                  match decode_char c3, decode_chars rest with
                  | Some s3, Some tl =>
                      let '(x, y, z) := ungroup3 s0 s1 s2 s3 in
                      Some (x :: y :: z :: tl)
                  | _, _ => None
                  end
            | None => None
            end
      | _, _ => None
      end
  | _ => None
  end.

Definition b64decode (s : string) : option (list byte) :=
  decode_chars (list_ascii_of_string s).

End Base64.

(** * Python values used by the proxy *)

(** Exceptions: the two the method bodies can raise themselves, the
    assertion of [image_layer], and whatever a library call raises. *)
Inductive Exn : Type :=
| IndexError
| TypeError
| AssertionError (msg : string)
| Raised (name : string).

Definition bytes : Type := list byte.

(** A 2-D plane of pixels and a 3-D numpy array [(count, rows, cols)].
    Pixel values are exact rationals, which cover every integer and every
    finite float sample. *)
Definition Array2 : Type := list (list Q).

Record NdArray : Type := mkNdArray { dtype : string; planes : list Array2 }.

Definition Qgtb (x y : Q) : bool := negb (Qle_bool x y).

(** [np.where(arr > y, t, e)]. *)
Definition np_where_gt (arr : NdArray) (y t e : Q) : NdArray :=
  {| dtype := "int64";
     planes := map (map (map (fun x => if Qgtb x y then t else e))) (planes arr) |}.

(** [arr.astype(ty)] on an array whose values already fit [ty]. *)
Definition astype (arr : NdArray) (ty : string) : NdArray :=
  {| dtype := ty; planes := planes arr |}.

(** [arr[b][r][c]]. *)
Definition pixel_at (arr : NdArray) (b r c : nat) : option Q :=
  match nth_error (planes arr) b with
  | Some p => match nth_error p r with
              | Some row => nth_error row c
              | None => None
              end
  | None => None
  end.

Definition Colormap : Type := list (Z * (Z * Z * Z * Z)).

(** Resources the code holds, and the ghost log of what it does with them. *)
Inductive Handle : Type :=
| HSource (path : string)
| HMemoryFile (m : nat)
| HWriter (w : nat).

Inductive Event : Type :=
| Opened (h : Handle)
| Closed (h : Handle)
| Wrote (w : nat) (plane : Array2) (bidx : nat)
| WroteColormap (w : nat) (bidx : nat) (cmap : Colormap).

(** The planes handed to the image writer, in order. *)
Fixpoint written_planes (evs : list Event) : list Array2 :=
  match evs with
  | [] => []
  | Wrote _ p _ :: evs' => p :: written_planes evs'
  | _ :: evs' => written_planes evs'
  end.

(** [s.split(".")[-1]] and [s.lower()] on ASCII strings. *)
Fixpoint last_after_dot (s acc : string) : string :=
  match s with
  | EmptyString => acc
  | String ch s' =>
      if Ascii.eqb ch "."%char then last_after_dot s' ""
      else last_after_dot s' (acc ++ String ch "")%string
  end.

Definition lower_ascii (ch : ascii) : ascii :=
  let n := nat_of_ascii ch in
  if (65 <=? n)%nat && (n <=? 90)%nat then ascii_of_nat (n + 32) else ch.

Fixpoint lower (s : string) : string :=
  match s with
  | EmptyString => EmptyString
  | String ch s' => String (lower_ascii ch) (lower s')
  end.

Definition string_in (s : string) (l : list string) : bool :=
  existsb (String.eqb s) l.

Inductive InputKind : Type :=
| KDisplay | KNumber | KText | KSelect | KMultiselect
| KDrawFeature | KBarChart | KLineChart.

Inductive TileKind : Type := KEarthEngine | KTile.

(** * The proxy, its collaborators and the monad of its methods *)

(** Types owned by code outside this file: the external world, keyword
    arguments, the component classes of [input_types] and [layers], a
    GeoDataFrame, a style dict, a JSON-like value and an input value. *)
Record Host : Type := mkHost {
  host_W : Type;
  host_Kwargs : Type;
  host_GreppoInput : Type;
  host_ComponentInfo : Type;
  host_TileLayerComponent : Type;
  host_TileLayer : Type;
  host_Gdf : Type;
  host_Style : Type;
  host_Flat : Type;
  host_Any : Type
}.

Section Model.

Context {A : Type} {NumA : Num A}.

Variable H : Host.

Local Abbreviation W := (host_W H).
Local Abbreviation Kwargs := (host_Kwargs H).
Local Abbreviation GreppoInput := (host_GreppoInput H).
Local Abbreviation ComponentInfo := (host_ComponentInfo H).
Local Abbreviation TileLayerComponent := (host_TileLayerComponent H).
Local Abbreviation TileLayer := (host_TileLayer H).
Local Abbreviation Gdf := (host_Gdf H).
Local Abbreviation Style := (host_Style H).
Local Abbreviation Flat := (host_Flat H).
Local Abbreviation Any := (host_Any H).

(** [src_dataset.meta] and the keyword arguments of the PNG writer. *)
Record Profile : Type := mkProfile {
  p_crs : string;
  p_width : Z;
  p_height : Z;
  p_driver : string;
  p_dtype : string;
  p_transform : Affine.t A;
  p_count : nat;
  p_nodata : option Q
}.

(** An opened rasterio dataset. *)
Record Dataset : Type := mkDataset {
  ds_name : string;
  ds_crs : string;
  ds_width : Z;
  ds_height : Z;
  ds_count : nat;
  ds_bounds : A * A * A * A;
  ds_meta : Profile
}.

(** [rasterio.band(ds, bidx)]: the dataset and a band index (the dtype
    and shape fields of the named tuple repeat the dataset's). *)
Record Band : Type := mkBand { band_ds : Dataset; band_bidx : nat }.

Definition rasterio_band (ds : Dataset) (bidx : nat) : Band :=
  {| band_ds := ds; band_bidx := bidx |}.

(** What [dst_bands] holds: the pair [reproject] returns, or a source
    band appended by the padding loop. *)
Inductive BandItem : Type :=
| Reprojected (arr : NdArray) (transform : Affine.t A)
| SourceBand (band : Band).

(** Modelled from the spec: the layer dataclasses of [greppo.layers],
    whose declarations are not in the source tree; the fields are the
    positional arguments of the constructor calls, in order. *)
Record BaseLayer : Type := mkBaseLayer {
  bl_id : string; bl_name : string; bl_visible : bool; bl_url : string;
  bl_subdomains : list string; bl_attribution : string
}.

Record OverlayLayer : Type := mkOverlayLayer {
  ol_id : string; ol_data : Gdf; ol_title : string; ol_description : string;
  ol_style : Style; ol_visible : bool; ol_viewzoom : A * A * Z
}.

Record RasterLayer : Type := mkRasterLayer {
  rl_id : string; rl_title : string; rl_description : string;
  rl_url : string; rl_bounds : list (list A); rl_visible : bool
}.

Record ImageLayer : Type := mkImageLayer {
  il_id : string; il_title : string; il_description : string;
  il_url : string; il_bounds : list (list A); il_visible : bool
}.

(** [GreppoAppProxy]: the attributes set by [__init__]. *)
Record GreppoAppProxy : Type := mkProxy {
  base_layers : list BaseLayer;
  tile_layers : list TileLayer;
  overlay_layers : list OverlayLayer;
  raster_layers : list RasterLayer;
  image_layers : list ImageLayer;
  raster_image_reference : list bytes;
  registered_inputs : list ComponentInfo;
  inputs : list (string * Any)
}.

Definition GreppoAppProxy_init : GreppoAppProxy :=
  {| base_layers := []; tile_layers := []; overlay_layers := [];
     raster_layers := []; image_layers := []; raster_image_reference := [];
     registered_inputs := []; inputs := [] |}.

(** A library call: it may read and change the world, and may raise. *)
Definition Ext (T : Type) : Type := W -> (Exn + T) * W.

Record Collaborators : Type := mkCollaborators {
  (* uuid *)
  uuid4_hex : Ext string;
  (* rasterio *)
  rasterio_open : string -> Ext Dataset;
  calculate_default_transform :
    string -> string -> Z -> Z -> A * A * A * A -> Ext (Affine.t A * Z * Z);
  reproject : Band -> string -> Ext (NdArray * Affine.t A);
  MemoryFile : Ext nat;
  memfile_open : nat -> Profile -> Ext nat;
  memfile_read : nat -> Ext bytes;
  memfile_close : nat -> Ext unit;
  dataset_write : nat -> Array2 -> nat -> Ext unit;
  dataset_write_colormap : nat -> nat -> Colormap -> Ext unit;
  dataset_close : nat -> Ext unit;
  (* geopandas and greppo.osm *)
  bounds_minx_min : Gdf -> A;
  bounds_miny_min : Gdf -> A;
  bounds_maxx_max : Gdf -> A;
  bounds_maxy_max : Gdf -> A;
  osm_Map_z : list A -> Ext Z;
  gdf_to_json : Gdf -> Ext Flat;
  (* PIL: [Image.open(path).save(buffered, format="JPEG")] *)
  image_as_jpeg : string -> Ext bytes;
  (* component classes *)
  new_input : InputKind -> Kwargs -> Ext GreppoInput;
  convert_to_component_info : GreppoInput -> Ext ComponentInfo;
  new_tile_component : TileKind -> Kwargs -> Ext TileLayerComponent;
  convert_to_dataclass : TileLayerComponent -> Ext TileLayer;
  tile_layer_dict : TileLayer -> Ext Flat;
  asdict : ComponentInfo -> Flat
}.

Variable C : Collaborators.

(** The state a method runs in: the proxy object, the world, the log. *)
Record State : Type := mkState {
  proxy : GreppoAppProxy;
  world : W;
  log : list Event
}.

Definition M (T : Type) : Type := State -> (Exn + T) * State.

Definition ret {T} (x : T) : M T := fun s => (inr x, s).

Definition bind {T U} (m : M T) (k : T -> M U) : M U :=
  fun s =>
    match m s with
    | (inl e, s') => (inl e, s')
    | (inr x, s') => k x s'
    end.

Definition raise {T} (e : Exn) : M T := fun s => (inl e, s).

Definition call {T} (c : Ext T) : M T :=
  fun s =>
    let '(r, w') := c (world s) in
    (r, {| proxy := proxy s; world := w'; log := log s |}).

Definition emit (ev : Event) : M unit :=
  fun s =>
    (inr tt, {| proxy := proxy s; world := world s; log := log s ++ [ev] |}).

Definition get_proxy : M GreppoAppProxy := fun s => (inr (proxy s), s).

Definition update (f : GreppoAppProxy -> GreppoAppProxy) : M unit :=
  fun s =>
    (inr tt, {| proxy := f (proxy s); world := world s; log := log s |}).

(** [with enter as r: body]: [exit] runs on every way out of [body]; an
    exception of [body] goes on unless [exit] raises one itself. *)
Definition with_ {R T} (enter : M R) (exit : R -> M unit) (body : R -> M T)
  : M T :=
  fun s =>
    match enter s with
    | (inl e, s1) => (inl e, s1)
    | (inr r, s1) =>
        let '(res, s2) := body r s1 in
        match exit r s2 with
        | (inl e', s3) => (inl e', s3)
        | (inr _, s3) => (res, s3)
        end
    end.

Notation "x <- c ;; k" := (bind c (fun x => k))
  (at level 61, c at next level, right associativity).
Notation "c ;;; k" := (bind c (fun _ => k))
  (at level 61, right associativity).

Fixpoint for_each {X Y} (f : X -> M Y) (l : list X) : M (list Y) :=
  match l with
  | [] => ret []
  | x :: l' => y <- f x ;; ys <- for_each f l' ;; ret (y :: ys)
  end.

(** ** Input components *)

Definition register_input (discovered_input : GreppoInput) : M GreppoInput :=
  component_info <- call (convert_to_component_info C discovered_input) ;;
  update (fun p =>
    {| base_layers := base_layers p; tile_layers := tile_layers p;
       overlay_layers := overlay_layers p; raster_layers := raster_layers p;
       image_layers := image_layers p;
       raster_image_reference := raster_image_reference p;
       registered_inputs := registered_inputs p ++ [component_info];
       inputs := inputs p |}) ;;;
  ret discovered_input.

(** [display], [number], [text], [select], [multiselect], [draw_feature],
    [bar_chart] and [line_chart] differ only in the class they build. *)
Definition input_component (k : InputKind) (kwargs : Kwargs) : M GreppoInput :=
  x <- call (new_input C k kwargs) ;;
  register_input x ;;;
  ret x.

(** ** Tile and base layers *)

Definition append_tile_layer (k : TileKind) (kwargs : Kwargs) : M unit :=
  component <- call (new_tile_component C k kwargs) ;;
  dataclass <- call (convert_to_dataclass C component) ;;
  update (fun p =>
    {| base_layers := base_layers p;
       tile_layers := tile_layers p ++ [dataclass];
       overlay_layers := overlay_layers p; raster_layers := raster_layers p;
       image_layers := image_layers p;
       raster_image_reference := raster_image_reference p;
       registered_inputs := registered_inputs p; inputs := inputs p |}).

Definition ee_layer (kwargs : Kwargs) : M unit := append_tile_layer KEarthEngine kwargs.

Definition tile_layer (kwargs : Kwargs) : M unit := append_tile_layer KTile kwargs.

Definition base_layer (name : string) (visible : bool) (url : string)
    (subdomains : list string) (attribution : string) : M unit :=
  id <- call (uuid4_hex C) ;;
  update (fun p =>
    {| base_layers :=
         base_layers p ++ [mkBaseLayer id name visible url subdomains attribution];
       tile_layers := tile_layers p;
       overlay_layers := overlay_layers p; raster_layers := raster_layers p;
       image_layers := image_layers p;
       raster_image_reference := raster_image_reference p;
       registered_inputs := registered_inputs p; inputs := inputs p |}).

(** ** Overlay layer and its viewport *)

Definition add_overlay_layer (l : OverlayLayer) (p : GreppoAppProxy)
  : GreppoAppProxy :=
  {| base_layers := base_layers p; tile_layers := tile_layers p;
     overlay_layers := overlay_layers p ++ [l];
     raster_layers := raster_layers p;
     image_layers := image_layers p;
     raster_image_reference := raster_image_reference p;
     registered_inputs := registered_inputs p; inputs := inputs p |}.

Definition overlay_layer (data : Gdf) (title description : string)
    (style : Style) (visible : bool) : M unit :=
  id <- call (uuid4_hex C) ;;
  let minx := bounds_minx_min C data in
  let miny := bounds_miny_min C data in
  let maxx := bounds_maxx_max C data in
  let maxy := bounds_maxy_max C data in
  let bnds := [miny; minx; maxy; maxx] in
  z <- call (osm_Map_z C bnds) ;;
  let viewzoom :=
    (ndiv (nadd miny maxy) (of_Z 2), ndiv (nadd minx maxx) (of_Z 2), z) in
  update (add_overlay_layer
            (mkOverlayLayer id data title description style visible viewzoom)).

(** ** Raster layer *)

Definition dst_crs : string := "EPSG:4326".

(** [1e8], the bound of the transparency test. *)
Definition threshold : Q := 100000000.

Definition colormap : Colormap :=
  [(0, (255, 0, 0, 255)); (255, (0, 0, 0, 255))]%Z.

Definition open_source (file_path : string) : M Dataset :=
  ds <- call (rasterio_open C file_path) ;;
  emit (Opened (HSource file_path)) ;;;
  ret ds.

(** The loop over [range(src_dataset.count)]. *)
Fixpoint reproject_bands (src_dataset : Dataset) (range : list nat)
    (dst_bands : list BandItem) : M (list BandItem) :=
  match range with
  | [] => ret dst_bands
  | band_n_1 :: range' =>
      let src_band := rasterio_band src_dataset (band_n_1 + 1) in
      dst_band <- call (reproject C src_band dst_crs) ;;
      reproject_bands src_dataset range'
        (dst_bands ++ [Reprojected (fst dst_band) (snd dst_band)])
  end.

(** [if src_dataset.count != 3: for i in range(len(dst_bands), count): ...]. *)
Definition pad_bands (src_dataset : Dataset) (dst_bands : list BandItem)
  : list BandItem :=
  if negb (Nat.eqb (ds_count src_dataset) 3) then
    fold_left
      (fun acc (_ : nat) => acc ++ [SourceBand (rasterio_band src_dataset 1)])
      (seq (List.length dst_bands) (ds_count src_dataset - List.length dst_bands))
      dst_bands
  else dst_bands.

(** The mask computed from [dst_bands[0][0]], before the cast. *)
Definition alpha_mask (arr : NdArray) : NdArray := np_where_gt arr threshold 0 1.

(** Lines 196 to 199: the alpha band is a copy of element 0 with its
    array replaced by the mask cast to [uint8]. *)
Definition append_alpha (dst_bands : list BandItem) : M (list BandItem) :=
  match dst_bands with
  | [] => raise IndexError
  | Reprojected arr transform :: _ =>
      let alpha := alpha_mask arr in
      ret (dst_bands ++ [Reprojected (astype alpha "uint8") transform])
  | SourceBand _ :: _ => raise TypeError
  end.

(** [dst_band[0][0]]. *)
Definition plane0 (dst_band : BandItem) : M Array2 :=
  match dst_band with
  | Reprojected arr _ =>
      match planes arr with
      | [] => raise IndexError
      | plane :: _ => ret plane
      end
  | SourceBand _ => raise TypeError
  end.

(** The loop over [enumerate(dst_bands)]. *)
Fixpoint write_bands (dst_file : nat) (i_1 : nat) (dst_bands : list BandItem)
  : M unit :=
  match dst_bands with
  | [] => ret tt
  | dst_band :: rest =>
      plane <- plane0 dst_band ;;
      emit (Wrote dst_file plane (i_1 + 1)) ;;;
      call (dataset_write C dst_file plane (i_1 + 1)) ;;;
      emit (WroteColormap dst_file (i_1 + 1) colormap) ;;;
      call (dataset_write_colormap C dst_file (i_1 + 1) colormap) ;;;
      write_bands dst_file (S i_1) rest
  end.

(** Entering and leaving a [with] block on a library object. *)
Definition acquire (h : nat -> Handle) (c : Ext nat) : M nat :=
  x <- call c ;; emit (Opened (h x)) ;;; ret x.

Definition release (h : nat -> Handle) (close : nat -> Ext unit) (x : nat)
  : M unit :=
  emit (Closed (h x)) ;;; call (close x).

Definition enter_memfile : M nat := acquire HMemoryFile (MemoryFile C).

Definition exit_memfile : nat -> M unit := release HMemoryFile (memfile_close C).

Definition enter_writer (m : nat) (png_kwargs : Profile) : M nat :=
  acquire HWriter (memfile_open C m png_kwargs).

Definition exit_writer : nat -> M unit := release HWriter (dataset_close C).

Definition png_profile (src_dataset : Dataset) (transform : Affine.t A)
    (width height : Z) (dst_bands : list BandItem) : Profile :=
  {| p_crs := dst_crs; p_width := width; p_height := height;
     p_driver := "PNG"; p_dtype := "uint8"; p_transform := transform;
     p_count := List.length dst_bands;
     p_nodata := p_nodata (ds_meta src_dataset) |}.

(** Lines 229 to 231. *)
Definition raster_bounds (transform : Affine.t A) (width height : Z)
  : list (list A) :=
  let '(bounds_bottom, bounds_right) :=
    Affine.mul_point transform (of_Z 0, of_Z 0) in
  let '(bounds_top, bounds_left) :=
    Affine.mul_point transform (of_Z width, of_Z height) in
  [[bounds_left; bounds_bottom]; [bounds_right; bounds_top]].

Definition data_uri_prefix : string := "data:image/png;base64,".

Definition add_reference (data : bytes) (p : GreppoAppProxy) : GreppoAppProxy :=
  {| base_layers := base_layers p; tile_layers := tile_layers p;
     overlay_layers := overlay_layers p; raster_layers := raster_layers p;
     image_layers := image_layers p;
     raster_image_reference := raster_image_reference p ++ [data];
     registered_inputs := registered_inputs p; inputs := inputs p |}.

Definition add_raster_layer (l : RasterLayer) (p : GreppoAppProxy)
  : GreppoAppProxy :=
  {| base_layers := base_layers p; tile_layers := tile_layers p;
     overlay_layers := overlay_layers p;
     raster_layers := raster_layers p ++ [l];
     image_layers := image_layers p;
     raster_image_reference := raster_image_reference p;
     registered_inputs := registered_inputs p; inputs := inputs p |}.

Definition append_reference (data : bytes) : M unit :=
  update (add_reference data).

Definition append_raster_layer (l : RasterLayer) : M unit :=
  update (add_raster_layer l).

(** Lines 216 to 223, the body of the inner [with]. *)
Definition write_image (png_memfile dst_file : nat) (dst_bands : list BandItem)
  : M unit :=
  write_bands dst_file 0 dst_bands ;;;
  data <- call (memfile_read C png_memfile) ;;
  append_reference data.

(** Lines 214 to 235, the two nested [with] blocks. *)
Definition encode_and_register (id title description : string) (visible : bool)
    (transform : Affine.t A) (width height : Z)
    (png_kwargs : Profile) (dst_bands : list BandItem) : M unit :=
  with_ enter_memfile exit_memfile (fun png_memfile =>
    with_ (enter_writer png_memfile png_kwargs) exit_writer
      (fun dst_file => write_image png_memfile dst_file dst_bands) ;;;
    data <- call (memfile_read C png_memfile) ;;
    let url := (data_uri_prefix ++ Base64.b64encode data)%string in
    let bounds := raster_bounds transform width height in
    append_raster_layer (mkRasterLayer id title description url bounds visible)).

(** What lines 173 to 199 leave in the local variables. *)
Record Resampled : Type := mkResampled {
  r_id : string;
  r_src_dataset : Dataset;
  r_transform : Affine.t A;
  r_width : Z;
  r_height : Z;
  r_dst_bands : list BandItem
}.

(** Lines 173 to 199: open, compute the grid, reproject, pad, add alpha. *)
Definition resample_source (file_path : string) : M Resampled :=
  id <- call (uuid4_hex C) ;;
  src_dataset <- open_source file_path ;;
  twh <- call (calculate_default_transform C (ds_crs src_dataset) dst_crs
                 (ds_width src_dataset) (ds_height src_dataset)
                 (ds_bounds src_dataset)) ;;
  let '(transform, width, height) := twh in
  dst_bands <- reproject_bands src_dataset (seq 0 (ds_count src_dataset)) [] ;;
  let dst_bands := pad_bands src_dataset dst_bands in
  dst_bands <- append_alpha dst_bands ;;
  ret (mkResampled id src_dataset transform width height dst_bands).

Definition raster_layer (file_path title description : string) (visible : bool)
  : M unit :=
  r <- resample_source file_path ;;
  let png_kwargs :=
    png_profile (r_src_dataset r) (r_transform r) (r_width r) (r_height r)
      (r_dst_bands r) in
  encode_and_register (r_id r) title description visible
    (r_transform r) (r_width r) (r_height r) png_kwargs (r_dst_bands r).

(** ** Image layer *)

Definition image_layer (file_path title description : string) (visible : bool)
  : M unit :=
  id <- call (uuid4_hex C) ;;
  let file_ext := lower (last_after_dot file_path "") in
  if string_in file_ext ["png"; "jpg"; "jpeg"] then
    jpeg <- call (image_as_jpeg C file_path) ;;
    let image_string := Base64.b64encode jpeg in
    let url := (data_uri_prefix ++ image_string)%string in
    let bounds :=
      [[of_Q 14.760840184106792; of_Q 77.97900023926854];
       [of_Q 14.763995704693206; of_Q 77.98389492733145]] in
    update (fun p =>
      {| base_layers := base_layers p; tile_layers := tile_layers p;
         overlay_layers := overlay_layers p; raster_layers := raster_layers p;
         image_layers :=
           image_layers p ++ [mkImageLayer id title description url bounds visible];
         raster_image_reference := raster_image_reference p;
         registered_inputs := registered_inputs p; inputs := inputs p |})
  else
    raise (AssertionError
             "Image input extension should be png, jpg or jpeg for image_layer").

(** ** Inputs and output *)

Definition update_inputs (new_inputs : list (string * Any)) : M unit :=
  update (fun p =>
    {| base_layers := base_layers p; tile_layers := tile_layers p;
       overlay_layers := overlay_layers p; raster_layers := raster_layers p;
       image_layers := image_layers p;
       raster_image_reference := raster_image_reference p;
       registered_inputs := registered_inputs p; inputs := new_inputs |}).

(** An overlay layer's [__dict__] with its [data] replaced by JSON. *)
Record OverlayLayerData : Type := mkOverlayLayerData {
  old_layer : OverlayLayer;
  old_data : Flat
}.

Record AppOutput : Type := mkAppOutput {
  base_layer_info : list BaseLayer;
  tile_layer_info : list Flat;
  overlay_layer_data : list OverlayLayerData;
  raster_layer_data : list RasterLayer;
  image_layer_data : list ImageLayer;
  component_info : list Flat
}.

Definition gpo_prepare_data : M AppOutput :=
  p <- get_proxy ;;
  tiles <- for_each (fun l => call (tile_layer_dict C l)) (tile_layers p) ;;
  overlays <- for_each
    (fun l => j <- call (gdf_to_json C (ol_data l)) ;; ret (mkOverlayLayerData l j))
    (overlay_layers p) ;;
  ret {| base_layer_info := base_layers p;
         tile_layer_info := tiles;
         overlay_layer_data := overlays;
         raster_layer_data := raster_layers p;
         image_layer_data := image_layers p;
         component_info := map (asdict C) (registered_inputs p) |}.

(** [None] when the list is empty, else element 0. *)
Definition gpo_reference_data : M (option bytes) :=
  p <- get_proxy ;;
  if Nat.eqb (List.length (raster_image_reference p)) 0 then ret None
  else ret (nth_error (raster_image_reference p) 0).

(** ** The public operations, as one type *)

Inductive Op : Type :=
| OpInput (k : InputKind) (kwargs : Kwargs)
| OpEeLayer (kwargs : Kwargs)
| OpTileLayer (kwargs : Kwargs)
| OpBaseLayer (name : string) (visible : bool) (url : string)
    (subdomains : list string) (attribution : string)
| OpOverlayLayer (data : Gdf) (title description : string) (style : Style)
    (visible : bool)
| OpRasterLayer (file_path title description : string) (visible : bool)
| OpImageLayer (file_path title description : string) (visible : bool)
| OpUpdateInputs (new_inputs : list (string * Any))
| OpRegisterInput (discovered_input : GreppoInput)
| OpPrepareData
| OpReferenceData.

Definition discard {T} (m : M T) : M unit := m ;;; ret tt.

Definition run_op (op : Op) : M unit :=
  match op with
  | OpInput k kwargs => discard (input_component k kwargs)
  | OpEeLayer kwargs => ee_layer kwargs
  | OpTileLayer kwargs => tile_layer kwargs
  | OpBaseLayer name visible url subdomains attribution =>
      base_layer name visible url subdomains attribution
  | OpOverlayLayer data title description style visible =>
      overlay_layer data title description style visible
  | OpRasterLayer file_path title description visible =>
      raster_layer file_path title description visible
  | OpImageLayer file_path title description visible =>
      image_layer file_path title description visible
  | OpUpdateInputs new_inputs => update_inputs new_inputs
  | OpRegisterInput x => discard (register_input x)
  | OpPrepareData => discard gpo_prepare_data
  | OpReferenceData => discard gpo_reference_data
  end.

(** A script: operations run in order; it stops at the first exception. *)
Fixpoint run_ops (ops : list Op) : M unit :=
  match ops with
  | [] => ret tt
  | op :: ops' => run_op op ;;; run_ops ops'
  end.

End Model.

Arguments Dataset : clear implicits.
Arguments Profile : clear implicits.
Arguments Band : clear implicits.
Arguments BandItem : clear implicits.
Arguments RasterLayer : clear implicits.
Arguments ImageLayer : clear implicits.
Arguments State {A H}.
Arguments mkState {A H} &.
Arguments proxy {A H}.
Arguments world {A H}.
Arguments log {A H}.
Arguments GreppoAppProxy {A H}.
Arguments GreppoAppProxy_init {A H}.
Arguments base_layers {A H}.
Arguments tile_layers {A H}.
Arguments overlay_layers {A H}.
Arguments raster_layers {A H}.
Arguments image_layers {A H}.
Arguments raster_image_reference {A H}.
Arguments registered_inputs {A H}.
Arguments inputs {A H}.
Arguments M {A H}.
Arguments ret {A H T}.
Arguments bind {A H T U}.
Arguments raise {A H T}.
Arguments call {A H T}.
Arguments emit {A H}.
Arguments update {A H}.
Arguments get_proxy {A H}.
Arguments with_ {A H R T}.
Arguments for_each {A H X Y}.
Arguments Collaborators {A}.
Arguments mkCollaborators {A} H &.
Arguments uuid4_hex {A H}.
Arguments rasterio_open {A H}.
Arguments calculate_default_transform {A H}.
Arguments reproject {A H}.
Arguments MemoryFile {A H}.
Arguments memfile_open {A H}.
Arguments memfile_read {A H}.
Arguments memfile_close {A H}.
Arguments dataset_write {A H}.
Arguments dataset_write_colormap {A H}.
Arguments dataset_close {A H}.
Arguments bounds_minx_min {A H}.
Arguments bounds_miny_min {A H}.
Arguments bounds_maxx_max {A H}.
Arguments bounds_maxy_max {A H}.
Arguments osm_Map_z {A H}.
Arguments gdf_to_json {A H}.
Arguments image_as_jpeg {A H}.
Arguments new_input {A H}.
Arguments convert_to_component_info {A H}.
Arguments new_tile_component {A H}.
Arguments convert_to_dataclass {A H}.
Arguments tile_layer_dict {A H}.
Arguments asdict {A H}.
Arguments register_input {A H}.
Arguments input_component {A H}.
Arguments append_tile_layer {A H}.
Arguments ee_layer {A H}.
Arguments tile_layer {A H}.
Arguments base_layer {A H}.
Arguments mkOverlayLayer {A H}.
Arguments ol_viewzoom {A H}.
Arguments add_overlay_layer {A H}.
Arguments overlay_layer {A NumA H} C &.
Arguments open_source {A H}.
Arguments reproject_bands {A H}.
Arguments append_alpha {A H}.
Arguments plane0 {A H}.
Arguments write_bands {A H}.
Arguments acquire {A H}.
Arguments release {A H}.
Arguments enter_memfile {A H}.
Arguments exit_memfile {A H}.
Arguments enter_writer {A H}.
Arguments exit_writer {A H}.
Arguments add_reference {A H}.
Arguments add_raster_layer {A H}.
Arguments append_reference {A H}.
Arguments append_raster_layer {A H}.
Arguments write_image {A H}.
Arguments encode_and_register {A NumA H}.
Arguments Resampled : clear implicits.
Arguments resample_source {A H}.
Arguments raster_layer {A NumA H}.
Arguments image_layer {A NumA H}.
Arguments update_inputs {A H}.
Arguments gpo_prepare_data {A H}.
Arguments gpo_reference_data {A H}.
Arguments Op : clear implicits.
Arguments OpInput {H} &.
Arguments OpEeLayer {H} &.
Arguments OpTileLayer {H} &.
Arguments OpBaseLayer {H} &.
Arguments OpOverlayLayer {H} &.
Arguments OpRasterLayer {H} &.
Arguments OpImageLayer {H} &.
Arguments OpUpdateInputs {H} &.
Arguments OpRegisterInput {H} &.
Arguments OpPrepareData {H} &.
Arguments OpReferenceData {H} &.
Arguments discard {A H T}.
Arguments run_op {A NumA H}.
Arguments run_ops {A NumA H}.

(** * A test double of the libraries

    A small deterministic world on which the methods can be run: files
    are looked up in a table, identifiers are counted, and the memory
    file is a byte buffer with a read position whose content appears when
    its writer is closed. *)

Module Double.

Record World : Type := mkWorld {
  next_id : nat;
  pending : list Array2;
  buffer : bytes;
  position : nat
}.

Definition host : Host :=
  {| host_W := World; host_Kwargs := unit; host_GreppoInput := unit;
     host_ComponentInfo := unit; host_TileLayerComponent := unit;
     host_TileLayer := unit; host_Gdf := (Q * Q * Q * Q)%type;
     host_Style := unit; host_Flat := unit; host_Any := unit |}.

(** What the double answers. *)
Record Script : Type := mkScript {
  files : list (string * Dataset Q);
  grid : Affine.t Q * Z * Z;
  band_array : nat -> NdArray;
  band_transform : Affine.t Q;
  zoom : Z
}.

Definition initial : World :=
  {| next_id := 0; pending := []; buffer := []; position := 0 |}.

Definition ok {T} (x : T) : World -> (Exn + T) * World := fun w => (inr x, w).

Fixpoint lookup_file (path : string) (l : list (string * Dataset Q))
  : option (Dataset Q) :=
  match l with
  | [] => None
  | (p, ds) :: l' => if String.eqb path p then Some ds else lookup_file path l'
  end.

Definition pixel_byte (q : Q) : byte :=
  match Byte.of_N (Z.to_N (Qnum q mod 256)) with
  | Some x => x
  | None => Base64.zero
  end.

(** The stand-in for the PNG encoder: a tag and one byte per pixel. *)
Definition encode_planes (ps : list Array2) : bytes :=
  ["P"; "N"; "G"]%byte ++ map pixel_byte (List.concat (List.concat ps)).

Definition fresh_id : World -> (Exn + string) * World :=
  fun w =>
    (inr (String "i" (String "d" (String (ascii_of_nat (48 + next_id w)) ""))),
     {| next_id := S (next_id w); pending := pending w;
        buffer := buffer w; position := position w |}).

Definition collaborators (sc : Script) : Collaborators host :=
  {| uuid4_hex := fresh_id;
     rasterio_open := fun path w =>
       match lookup_file path (files sc) with
       | Some ds => (inr ds, w)
       | None => (inl (Raised "RasterioIOError"), w)
       end;
     calculate_default_transform := fun _ _ _ _ _ => ok (grid sc);
     reproject := fun band _ =>
       ok (band_array sc (band_bidx band), band_transform sc);
     MemoryFile := fun w =>
       (inr (next_id w),
        {| next_id := S (next_id w); pending := []; buffer := []; position := 0 |});
     memfile_open := fun m _ => ok m;
     memfile_read := fun _ w =>
       (inr (skipn (position w) (buffer w)),
        {| next_id := next_id w; pending := pending w; buffer := buffer w;
           position := List.length (buffer w) |});
     memfile_close := fun _ => ok tt;
     dataset_write := fun _ plane _ w =>
       (inr tt,
        {| next_id := next_id w; pending := pending w ++ [plane];
           buffer := buffer w; position := position w |});
     dataset_write_colormap := fun _ _ _ => ok tt;
     dataset_close := fun _ w =>
       (inr tt,
        {| next_id := next_id w; pending := [];
           buffer := encode_planes (pending w); position := position w |});
     bounds_minx_min := fun g => let '(minx, _, _, _) := g in minx;
     bounds_miny_min := fun g => let '(_, miny, _, _) := g in miny;
     bounds_maxx_max := fun g => let '(_, _, maxx, _) := g in maxx;
     bounds_maxy_max := fun g => let '(_, _, _, maxy) := g in maxy;
     osm_Map_z := fun _ => ok (zoom sc);
     gdf_to_json := fun _ => ok tt;
     image_as_jpeg := fun _ => ok ["J"; "P"; "G"]%byte;
     new_input := fun _ _ => ok tt;
     convert_to_component_info := fun _ => ok tt;
     new_tile_component := fun _ _ => ok tt;
     convert_to_dataclass := fun _ => ok tt;
     tile_layer_dict := fun _ => ok tt;
     asdict := fun _ => tt |}.

Definition start : @State Q host :=
  {| proxy := GreppoAppProxy_init; world := initial; log := [] |}.

Definition profile (n : nat) : Profile Q :=
  {| p_crs := "EPSG:32633"; p_width := 10; p_height := 10;
     p_driver := "GTiff"; p_dtype := "float32";
     p_transform := Affine.identity; p_count := n; p_nodata := None |}.

Definition dataset (name : string) (n : nat) : Dataset Q :=
  {| ds_name := name; ds_crs := "EPSG:32633"; ds_width := 10; ds_height := 10;
     ds_count := n; ds_bounds := (0, 0, 10, 10); ds_meta := profile n |}.

(** One band whose samples are [5], [-10^9] (beyond the bound, negative)
    and [10^9]; identity grid of 10 by 10. *)
Definition script : Script :=
  {| files := [("a.tif", dataset "a.tif" 1); ("b.tif", dataset "b.tif" 2)];
     grid := (Affine.identity, 10%Z, 10%Z);
     band_array := fun bidx =>
       {| dtype := "float32";
          planes := [[[5; - (1000000000); 1000000000 + inject_Z (Z.of_nat bidx)]]] |};
     band_transform := Affine.identity;
     zoom := 7 |}.

(** A script: two ingestions with other operations around them. *)
Definition session : list (Op host) :=
  [OpRasterLayer "a.tif" "t" "d" true;
   OpBaseLayer "b" true "u" [] "at";
   @OpOverlayLayer host (0, 0, 10, 20) "o" "d" tt true;
   OpRasterLayer "b.tif" "t2" "d2" false;
   OpReferenceData;
   OpPrepareData;
   OpImageLayer "x.PNG" "i" "d" true].

End Double.

(** * Notions used in the statements *)



Definition is_write (ev : Event) : bool :=
  match ev with
  | Wrote _ _ _ | WroteColormap _ _ _ => true
  | _ => false
  end.

(** [dst_band[0][0]] when it is defined. *)
Definition plane0_of {A} (dst_band : BandItem A) : option Array2 :=
  match dst_band with
  | Reprojected arr _ => hd_error (planes arr)
  | SourceBand _ => None
  end.

Fixpoint strip_prefix (pre s : string) : option string :=
  match pre, s with
  | EmptyString, _ => Some s
  | String x pre', String y s' =>
      if Ascii.eqb x y then strip_prefix pre' s' else None
  | String _ _, EmptyString => None
  end.

(** The bytes a data URI carries after its [data:image/png;base64,] prefix. *)
Definition payload (url : string) : option bytes :=
  match strip_prefix data_uri_prefix url with
  | Some text => Base64.b64decode text
  | None => None
  end.

(** The elements a step added at the end of a list. *)
Definition appended {X} (before after : list X) : list X :=
  skipn (List.length before) after.

(** For a script, the (record, reference bytes) pairs its operations
    appended, operation by operation. *)
Fixpoint produced {A} {NumA : Num A} {H : Host} (C : @Collaborators A H)
    (ops : list (Op H)) (s : @State A H) : list (RasterLayer A * bytes) :=
  match ops with
  | [] => []
  | op :: ops' =>
      match run_op C op s with
      | (inl _, _) => []
      | (inr _, s1) =>
          combine
            (appended (raster_layers (proxy s)) (raster_layers (proxy s1)))
            (appended (raster_image_reference (proxy s))
                      (raster_image_reference (proxy s1)))
            ++ produced C ops' s1
      end
  end.

(** A step that leaves the proxy alone and adds [evs] to the log. *)
Definition steps {A} {H : Host} (s : @State A H) (evs : list Event)
    (s' : @State A H) : Prop :=
  proxy s' = proxy s /\ log s' = log s ++ evs.

(** A band as the resampler returned it for band [n + 1] of [ds]: the
    call receives the source band and the target CRS, nothing else. *)
Definition resampled_from {A} {H : Host} (C : @Collaborators A H)
    (ds : Dataset A) (n : nat) (it : BandItem A) : Prop :=
  exists arr t w w',
    reproject C (rasterio_band ds (n + 1)) dst_crs w = (inr (arr, t), w') /\
    it = Reprojected arr t.

(** A rectangle with a non-empty interior. *)
Definition nonempty_rectangle (minx miny maxx maxy : Q) : bool :=
  Qgtb maxx minx && Qgtb maxy miny.

(** Both lists of a raster ingestion are what they were. *)
Definition keeps {A} {H : Host} (s s' : @State A H) : Prop :=
  raster_layers (proxy s') = raster_layers (proxy s) /\
  raster_image_reference (proxy s') = raster_image_reference (proxy s).

(** A computation that never changes either list, whatever it returns. *)
Definition preserves {A} {H : Host} {T} (m : @M A H T) : Prop :=
  forall s r s', m s = (r, s') -> keeps s s'.





(** The calls of a write loop that completes: from the world [wa], for
    each plane in order, [dst_file.write] and then
    [dst_file.write_colormap] return, under the index counted from
    [i + 1], and the last leaves the world [wb]. *)
Fixpoint written_through {A} {H : Host} (C : @Collaborators A H)
    (w i : nat) (ps : list Array2) (wa wb : host_W H) : Prop :=
  match ps with
  | [] => wa = wb
  | p :: ps' =>
      exists w1 w2,
        dataset_write C w p (i + 1) wa = (inr tt, w1) /\
        dataset_write_colormap C w (i + 1) colormap w1 = (inr tt, w2) /\
        written_through C w (S i) ps' w2 wb
  end.

(** ** The claims that fail, as stated *)

(** The identity scenario as the specification words it. *)
Definition bounds_as_claimed : list (list Q) := [[0; 0]; [10; 10]].


(** The data URI of the record decodes to the recorded reference bytes. *)
Definition uri_carries_reference {A} (l : RasterLayer A) (reference : bytes) : Prop :=
  payload (rl_url l) = Some reference.

(** Bounds that are not a rectangle with an interior are refused. *)
Definition rejects_empty_geometry {H : Host} (C : @Collaborators Q H)
    (data : host_Gdf H) (s : @State Q H) : Prop :=
  nonempty_rectangle (bounds_minx_min C data) (bounds_miny_min C data)
    (bounds_maxx_max C data) (bounds_maxy_max C data) = false ->
  forall title description style visible,
    fst (overlay_layer C data title description style visible s)
    = inl (Raised "EmptyGeometry").

(** ** Notions for the properties of the other methods *)

(** [l'] is [l] with elements added at the end. *)
Definition extends {X} (l l' : list X) : Prop := exists more, l' = l ++ more.

(** Every list of the proxy has only gained elements at its end. *)
Definition grows {A} {H : Host} (p p' : @GreppoAppProxy A H) : Prop :=
  extends (base_layers p) (base_layers p') /\
  extends (tile_layers p) (tile_layers p') /\
  extends (overlay_layers p) (overlay_layers p') /\
  extends (raster_layers p) (raster_layers p') /\
  extends (image_layers p) (image_layers p') /\
  extends (raster_image_reference p) (raster_image_reference p') /\
  extends (registered_inputs p) (registered_inputs p').

(** A computation after which, return or exception, the lists have only
    grown. *)
Definition monotone {A} {H : Host} {T} (m : @M A H T) : Prop :=
  forall s r s', m s = (r, s') -> grows (proxy s) (proxy s').

(** The lengths of the seven lists, in the order of [__init__]. *)
Definition sizes {A} {H : Host} (p : @GreppoAppProxy A H) : list nat :=
  [List.length (base_layers p); List.length (tile_layers p);
   List.length (overlay_layers p); List.length (raster_layers p);
   List.length (image_layers p); List.length (raster_image_reference p);
   List.length (registered_inputs p)].

(** How many elements a successful operation adds to each list. *)
Definition op_growth {H : Host} (op : Op H) : list nat :=
  match op with
  | OpInput _ _ | OpRegisterInput _ => [0; 0; 0; 0; 0; 0; 1]
  | OpEeLayer _ | OpTileLayer _ => [0; 1; 0; 0; 0; 0; 0]
  | OpBaseLayer _ _ _ _ _ => [1; 0; 0; 0; 0; 0; 0]
  | OpOverlayLayer _ _ _ _ _ => [0; 0; 1; 0; 0; 0; 0]
  | OpRasterLayer _ _ _ _ => [0; 0; 0; 1; 0; 1; 0]
  | OpImageLayer _ _ _ _ => [0; 0; 0; 0; 1; 0; 0]
  | OpUpdateInputs _ | OpPrepareData | OpReferenceData =>
      [0; 0; 0; 0; 0; 0; 0]
  end%nat.

Fixpoint vadd (a b : list nat) : list nat :=
  match a, b with
  | x :: a', y :: b' => (x + y)%nat :: vadd a' b'
  | _, _ => []
  end.

(** What the write loop logs for the planes [ps], starting at index [i]. *)
Fixpoint write_events (w i : nat) (ps : list Array2) : list Event :=
  match ps with
  | [] => []
  | p :: ps' =>
      Wrote w p (i + 1) :: WroteColormap w (i + 1) colormap
        :: write_events w (S i) ps'
  end.

Fixpoint no_dot (s : string) : bool :=
  match s with
  | EmptyString => true
  | String ch s' => negb (Ascii.eqb ch "."%char) && no_dot s'
  end.

(** The extensions [image_layer] accepts and the message of its assertion. *)
Definition image_extensions : list string := ["png"; "jpg"; "jpeg"].

Definition image_assertion : Exn :=
  AssertionError
    "Image input extension should be png, jpg or jpeg for image_layer".

(** ** A second test double: an empty source and a failing close *)

Module Edge.

(** A source with no band. *)
Definition script : Double.Script :=
  {| Double.files := [("empty.tif", Double.dataset "empty.tif" 0);
                      ("a.tif", Double.dataset "a.tif" 1)];
     Double.grid := Double.grid Double.script;
     Double.band_array := Double.band_array Double.script;
     Double.band_transform := Double.band_transform Double.script;
     Double.zoom := Double.zoom Double.script |}.


(** The libraries of [C], except that closing a writer raises. *)
Definition failing_close {A} {H : Host} (C : @Collaborators A H)
  : @Collaborators A H :=
  {| uuid4_hex := uuid4_hex C;
     rasterio_open := rasterio_open C;
     calculate_default_transform := calculate_default_transform C;
     reproject := reproject C;
     MemoryFile := MemoryFile C;
     memfile_open := memfile_open C;
     memfile_read := memfile_read C;
     memfile_close := memfile_close C;
     dataset_write := dataset_write C;
     dataset_write_colormap := dataset_write_colormap C;
     dataset_close := fun _ w => (inl (Raised "CPLE_AppDefinedError"), w);
     bounds_minx_min := bounds_minx_min C;
     bounds_miny_min := bounds_miny_min C;
     bounds_maxx_max := bounds_maxx_max C;
     bounds_maxy_max := bounds_maxy_max C;
     osm_Map_z := osm_Map_z C;
     gdf_to_json := gdf_to_json C;
     image_as_jpeg := image_as_jpeg C;
     new_input := new_input C;
     convert_to_component_info := convert_to_component_info C;
     new_tile_component := new_tile_component C;
     convert_to_dataclass := convert_to_dataclass C;
     tile_layer_dict := tile_layer_dict C;
     asdict := asdict C |}.

End Edge.

(** * Proofs *)

(** ** Base64 round trip *)

Lemma decode_encode_sextet (s : Base64.sextet) :
  Base64.decode_char (Base64.encode_sextet s) = Some s.
Proof. destruct s as [[[[[[] []] []] []] []] []]; reflexivity. Qed.

Lemma encode_sextet_not_pad (s : Base64.sextet) :
  Ascii.eqb (Base64.encode_sextet s) Base64.pad = false.
Proof. destruct s as [[[[[[] []] []] []] []] []]; reflexivity. Qed.

Lemma of_bits_bits (x : byte) : Base64.of_bits (Base64.bits x) = x.
Proof.
  unfold Base64.of_bits, Base64.bits.
  rewrite <- (Byte.of_bits_to_bits x) at 2.
  destruct (Byte.to_bits x) as (b0 & b1 & b2 & b3 & b4 & b5 & b6 & b7).
  reflexivity.
Qed.

Lemma bits_zero :
  Base64.bits Base64.zero = (false, false, false, false, false, false, false, false).
Proof. reflexivity. Qed.

Lemma list_ind3 {X} (P : list X -> Prop) :
  P [] -> (forall x, P [x]) -> (forall x y, P [x; y]) ->
  (forall x y z l, P l -> P (x :: y :: z :: l)) ->
  forall l, P l.
Proof.
  intros H0 H1 H2 H3.
  fix IH 1. intros [|x [|y [|z l]]].
  - exact H0.
  - apply H1.
  - apply H2.
  - apply H3, IH.
Qed.

Lemma decode_encode_chars (bs : list byte) :
  Base64.decode_chars (Base64.encode_chars bs) = Some bs.
Proof.
  induction bs as [|x|x y|x y z l IH] using list_ind3.
  - reflexivity.
  - cbn [Base64.encode_chars]. unfold Base64.group3. rewrite bits_zero.
    pose proof (of_bits_bits x) as Hx. revert Hx.
    destruct (Base64.bits x) as [[[[[[[x7 x6] x5] x4] x3] x2] x1] x0]. intros Hx.
    cbn [Base64.decode_chars].
    rewrite !decode_encode_sextet. cbn -[Base64.of_bits].
    rewrite Hx. reflexivity.
  - cbn [Base64.encode_chars]. unfold Base64.group3. rewrite bits_zero.
    pose proof (of_bits_bits x) as Hx. revert Hx.
    pose proof (of_bits_bits y) as Hy. revert Hy.
    destruct (Base64.bits x) as [[[[[[[x7 x6] x5] x4] x3] x2] x1] x0].
    destruct (Base64.bits y) as [[[[[[[y7 y6] y5] y4] y3] y2] y1] y0].
    intros Hy Hx.
    cbn [Base64.decode_chars].
    rewrite !decode_encode_sextet, encode_sextet_not_pad. cbn -[Base64.of_bits].
    rewrite Hx, Hy. reflexivity.
  - cbn [Base64.encode_chars]. unfold Base64.group3.
    pose proof (of_bits_bits x) as Hx. revert Hx.
    pose proof (of_bits_bits y) as Hy. revert Hy.
    pose proof (of_bits_bits z) as Hz. revert Hz.
    destruct (Base64.bits x) as [[[[[[[x7 x6] x5] x4] x3] x2] x1] x0].
    destruct (Base64.bits y) as [[[[[[[y7 y6] y5] y4] y3] y2] y1] y0].
    destruct (Base64.bits z) as [[[[[[[z7 z6] z5] z4] z3] z2] z1] z0].
    intros Hz Hy Hx.
    cbn [Base64.decode_chars].
    rewrite !decode_encode_sextet, !encode_sextet_not_pad, IH. cbn -[Base64.of_bits].
    rewrite Hx, Hy, Hz. reflexivity.
Qed.

Lemma b64decode_b64encode (bs : list byte) :
  Base64.b64decode (Base64.b64encode bs) = Some bs.
Proof.
  unfold Base64.b64decode, Base64.b64encode.
  rewrite list_ascii_of_string_of_list_ascii. apply decode_encode_chars.
Qed.

Lemma strip_prefix_app (pre s : string) :
  strip_prefix pre (pre ++ s)%string = Some s.
Proof.
  induction pre as [|x pre IH]; cbn.
  - destruct s; reflexivity.
  - rewrite Ascii.eqb_refl. exact IH.
Qed.

Lemma payload_data_uri (bs : bytes) :
  payload (data_uri_prefix ++ Base64.b64encode bs)%string = Some bs.
Proof.
  unfold payload. rewrite strip_prefix_app. apply b64decode_b64encode.
Qed.

(** ** The monad *)

Section Monad.

Context {A : Type} {H : Host}.

Implicit Types s : @State A H.

Lemma bind_inv {T U} (m : M T) (k : T -> M U) s r s' :
  bind m k s = (r, s') ->
  (exists e, m s = (inl e, s') /\ r = inl e) \/
  (exists x s1, m s = (inr x, s1) /\ k x s1 = (r, s')).
Proof.
  unfold bind. destruct (m s) as [[e | x] s1]; intros E.
  - left. exists e. inversion E; subst. split; reflexivity.
  - right. exists x, s1. split; [reflexivity | exact E].
Qed.

Lemma bind_ok_inv {T U} (m : M T) (k : T -> M U) s y s' :
  bind m k s = (inr y, s') ->
  exists x s1, m s = (inr x, s1) /\ k x s1 = (inr y, s').
Proof.
  intros E. apply bind_inv in E as [(e & _ & E) | E]; [discriminate | exact E].
Qed.

Lemma call_inv {T} (c : Ext H T) s r s' :
  call c s = (r, s') ->
  exists w', c (world s) = (r, w') /\
             s' = {| proxy := proxy s; world := w'; log := log s |}.
Proof.
  unfold call. destruct (c (world s)) as [r0 w']. intros E.
  inversion E; subst. exists w'. split; reflexivity.
Qed.

Lemma ret_inv {T} (x : T) s r s' : ret x s = (r, s') -> r = inr x /\ s' = s.
Proof. unfold ret. intros E. inversion E. split; reflexivity. Qed.

Lemma steps_refl s : steps s [] s.
Proof. split; [reflexivity | now rewrite app_nil_r]. Qed.

Lemma steps_trans s1 s2 s3 e1 e2 :
  steps s1 e1 s2 -> steps s2 e2 s3 -> steps s1 (e1 ++ e2) s3.
Proof.
  intros [P1 L1] [P2 L2]. split.
  - congruence.
  - rewrite L2, L1, app_assoc. reflexivity.
Qed.

Lemma call_steps {T} (c : Ext H T) s r s' : call c s = (r, s') -> steps s [] s'.
Proof.
  intros E. apply call_inv in E as (w' & _ & ->). split; cbn.
  - reflexivity.
  - now rewrite app_nil_r.
Qed.

Lemma emit_inv ev s r s' :
  emit ev s = (r, s') -> r = inr tt /\ steps s [ev] s'.
Proof.
  unfold emit. intros E. inversion E; subst. split; [reflexivity|].
  split; reflexivity.
Qed.

Lemma acquire_inv (h : nat -> Handle) (c : Ext H nat) s r s' :
  acquire h c s = (r, s') ->
  (exists e w', c (world s) = (inl e, w') /\ r = inl e /\ steps s [] s'
                /\ world s' = w') \/
  (exists x w', c (world s) = (inr x, w') /\ r = inr x
                /\ steps s [Opened (h x)] s' /\ world s' = w').
Proof.
  unfold acquire. intros E.
  apply bind_inv in E as [(e & E & ->) | (x & s1 & E & K)].
  - left. pose proof (call_steps _ _ _ _ E) as St.
    apply call_inv in E as (w' & E & ->). exists e, w'. auto.
  - right. apply call_inv in E as (w' & E & ->).
    unfold bind, emit, ret in K. cbn in K. inversion K; subst.
    exists x, w'. repeat split; auto.
Qed.

Lemma release_inv (h : nat -> Handle) (close : nat -> Ext H unit) x s r s' :
  release h close x s = (r, s') ->
  steps s [Closed (h x)] s' /\
  close x (world s) = (r, world s').
Proof.
  unfold release, bind, emit, call. cbn.
  destruct (close x (world s)) as [[e | []] w'] eqn:E; intros K;
    inversion K; subst; cbn; repeat split; reflexivity.
Qed.

(** A [with] block: either it is not entered, or [exit] runs after the
    body whatever the body did. *)
Lemma with_inv {R T} (enter : M R) (exit : R -> M unit) (body : R -> M T)
    s r s' :
  with_ enter exit body s = (r, s') ->
  (exists e, enter s = (inl e, s') /\ r = inl e) \/
  (exists x s1 rb s2 rx,
     enter s = (inr x, s1) /\ body x s1 = (rb, s2) /\ exit x s2 = (rx, s') /\
     r = match rx with inl e' => inl e' | inr _ => rb end).
Proof.
  unfold with_. destruct (enter s) as [[e | x] s1] eqn:E.
  - intros K. inversion K; subst. left. exists e. auto.
  - destruct (body x s1) as [rb s2] eqn:B.
    destruct (exit x s2) as [rx s3] eqn:X. intros K. right.
    exists x, s1, rb, s2, rx.
    destruct rx as [e' | u]; inversion K; subst; auto.
Qed.

End Monad.

(** ** The stages of [raster_layer] *)

Section Stages.

Context {A : Type} {NumA : Num A} {H : Host} (C : @Collaborators A H).

Implicit Types s : @State A H.

Lemma reproject_bands_steps ds range acc s r s' :
  reproject_bands C ds range acc s = (r, s') -> steps s [] s'.
Proof.
  revert acc s. induction range as [|n range IH]; intros acc s E; cbn in E.
  - apply ret_inv in E as [_ ->]. apply steps_refl.
  - apply bind_inv in E as [(e & E & _) | (x & s1 & E & K)].
    + eapply call_steps; eauto.
    + apply call_steps in E. apply IH in K.
      apply (steps_trans _ _ _ _ _ E K).
Qed.

Lemma reproject_bands_ok ds range acc s bands s' :
  reproject_bands C ds range acc s = (inr bands, s') ->
  exists news, bands = acc ++ news /\ Forall2 (resampled_from C ds) range news.
Proof.
  revert acc s. induction range as [|n range IH]; intros acc s E; cbn in E.
  - apply ret_inv in E as [E _]. inversion E; subst.
    exists []. split; [now rewrite app_nil_r | constructor].
  - apply bind_ok_inv in E as ([arr t] & s1 & E & K).
    apply call_inv in E as (w' & E & _).
    apply IH in K as (news & -> & F).
    exists (Reprojected arr t :: news). split.
    + now rewrite <- app_assoc.
    + constructor; [| exact F]. exists arr, t, (world s), w'. auto.
Qed.

Lemma pad_bands_full ds (bands : list (BandItem A)) :
  List.length bands = ds_count ds -> pad_bands ds bands = bands.
Proof.
  intros L. unfold pad_bands. rewrite L, Nat.sub_diag. cbn.
  destruct (negb _); reflexivity.
Qed.

Lemma append_alpha_inv (bands : list (BandItem A)) s r s' :
  append_alpha bands s = (r, s') ->
  s' = s /\
  forall bands', r = inr bands' ->
    exists arr t rest,
      bands = Reprojected arr t :: rest /\
      bands' = bands ++ [Reprojected (astype (alpha_mask arr) "uint8") t].
Proof.
  unfold append_alpha, raise, ret.
  destruct bands as [|[arr t | b] rest]; intros E; inversion E; subst;
    (split; [reflexivity | intros bands' E'; try discriminate]).
  inversion E'; subst. exists arr, t, rest. auto.
Qed.

Lemma open_source_inv path s r s' :
  open_source C path s = (r, s') ->
  (exists e w', rasterio_open C path (world s) = (inl e, w') /\ r = inl e /\
                s' = {| proxy := proxy s; world := w'; log := log s |}) \/
  (exists ds w', rasterio_open C path (world s) = (inr ds, w') /\ r = inr ds /\
                 s' = {| proxy := proxy s; world := w';
                         log := log s ++ [Opened (HSource path)] |}).
Proof.
  unfold open_source, bind, call, emit, ret.
  destruct (rasterio_open C path (world s)) as [[e | ds] w'] eqn:E;
    cbn; intros K; inversion K; subst; [left | right]; eauto 6.
Qed.

(** When the source cannot be opened nothing else happens. *)
Lemma resample_source_unreadable path s id w1 e w2 :
  uuid4_hex C (world s) = (inr id, w1) ->
  rasterio_open C path w1 = (inl e, w2) ->
  resample_source C path s
  = (inl e, {| proxy := proxy s; world := w2; log := log s |}).
Proof.
  intros U O. unfold resample_source, open_source, bind, call.
  rewrite U. cbn. rewrite O. reflexivity.
Qed.

Lemma resample_source_no_id path s e w1 :
  uuid4_hex C (world s) = (inl e, w1) ->
  resample_source C path s
  = (inl e, {| proxy := proxy s; world := w1; log := log s |}).
Proof.
  intros U. unfold resample_source, bind, call. rewrite U. reflexivity.
Qed.

(** Whatever happens, the proxy is untouched and the log gains at most
    the opening of the source. *)
Lemma resample_source_any path s r s' :
  resample_source C path s = (r, s') ->
  (steps s [] s' /\ exists e, r = inl e) \/
  steps s [Opened (HSource path)] s'.
Proof.
  unfold resample_source. intros E.
  apply bind_inv in E as [(e & E & ->) | (id & s1 & E & K)].
  { left. split; [eapply call_steps; eauto | eauto]. }
  pose proof (call_steps _ _ _ _ E) as S1.
  apply bind_inv in K as [(e & K & ->) | (ds & s2 & K & K2)].
  { left. apply open_source_inv in K
      as [(e' & w' & _ & _ & ->) | (ds & w' & _ & D & _)]; [| discriminate].
    split; [| eauto]. destruct S1 as [P1 L1]. split; cbn; auto. }
  right.
  assert (S2 : steps s1 [Opened (HSource path)] s2).
  { apply open_source_inv in K
      as [(e' & w' & _ & D & _) | (ds' & w' & _ & _ & ->)]; [discriminate|].
    split; reflexivity. }
  assert (S3 : steps s2 [] s').
  { apply bind_inv in K2 as [(e & K2 & _) | ([[t wd] ht] & s3 & K2 & K3)].
    { eapply call_steps; eauto. }
    apply call_steps in K2.
    apply bind_inv in K3 as [(e & K3 & _) | (bands & s4 & K3 & K4)].
    { apply reproject_bands_steps in K3.
      apply (steps_trans _ _ _ _ _ K2 K3). }
    apply reproject_bands_steps in K3.
    apply bind_inv in K4 as [(e & K4 & _) | (bands' & s5 & K4 & K5)].
    { apply append_alpha_inv in K4 as [-> _].
      apply (steps_trans _ _ _ _ _ K2 K3). }
    apply append_alpha_inv in K4 as [-> _].
    apply ret_inv in K5 as [_ ->].
    apply (steps_trans _ _ _ _ _ K2 K3). }
  pose proof (steps_trans _ _ _ _ _ S1 (steps_trans _ _ _ _ _ S2 S3)) as St.
  exact St.
Qed.

(** What a successful run of lines 173 to 199 has done. *)
Lemma resample_source_ok path s r s' :
  resample_source C path s = (inr r, s') ->
  steps s [Opened (HSource path)] s' /\
  (exists w1 w2 w3,
     uuid4_hex C (world s) = (inr (r_id r), w1) /\
     rasterio_open C path w1 = (inr (r_src_dataset r), w2) /\
     calculate_default_transform C (ds_crs (r_src_dataset r)) dst_crs
       (ds_width (r_src_dataset r)) (ds_height (r_src_dataset r))
       (ds_bounds (r_src_dataset r)) w2
     = (inr (r_transform r, r_width r, r_height r), w3)) /\
  exists bands arr0 t0 rest,
    Forall2 (resampled_from C (r_src_dataset r))
      (seq 0 (ds_count (r_src_dataset r))) bands /\
    pad_bands (r_src_dataset r) bands = bands /\
    bands = Reprojected arr0 t0 :: rest /\
    r_dst_bands r = bands ++ [Reprojected (astype (alpha_mask arr0) "uint8") t0].
Proof.
  intros E. split.
  { destruct (resample_source_any _ _ _ _ E) as [[_ [e D]] | St];
      [discriminate | exact St]. }
  unfold resample_source in E.
  apply bind_ok_inv in E as (id & s1 & E & K).
  apply call_inv in E as (w1 & U & ->).
  apply bind_ok_inv in K as (ds & s2 & K & K2).
  apply open_source_inv in K
    as [(e' & w' & _ & D & _) | (ds' & w2 & O & D & ->)]; [discriminate|].
  inversion D; subst ds'. cbn in O.
  apply bind_ok_inv in K2 as ([[t wd] ht] & s3 & K2 & K3).
  apply call_inv in K2 as (w3 & T & ->). cbn in T.
  apply bind_ok_inv in K3 as (bands & s4 & K3 & K4).
  apply reproject_bands_ok in K3 as (news & -> & F). cbn in F.
  pose proof (Forall2_length F) as L. rewrite length_seq in L.
  apply bind_ok_inv in K4 as (bands' & s5 & K4 & K5).
  cbn [app] in K4.
  rewrite (pad_bands_full ds news (eq_sym L)) in K4.
  apply append_alpha_inv in K4 as [-> K4].
  destruct (K4 _ eq_refl) as (arr0 & t0 & rest & B & B').
  apply ret_inv in K5 as [K5 _]. inversion K5; subst r. cbn.
  split.
  - exists w1, w2, w3. auto.
  - exists news, arr0, t0, rest. repeat split; auto.
    apply pad_bands_full. auto.
Qed.

Lemma plane0_inv (it : BandItem A) s r s' :
  plane0 it s = (r, s') ->
  s' = s /\ forall p, r = inr p <-> plane0_of it = Some p.
Proof.
  unfold plane0, plane0_of, raise, ret.
  destruct it as [[ty [|p0 ps]] t | b]; cbn; intros E; inversion E; subst;
    (split; [reflexivity | intros p; split; intros K; inversion K; reflexivity]).
Qed.

(** The write loop touches only the world and logs only writes; when it
    completes, the planes it logged are element [[0][0]] of each band. *)
Lemma write_bands_any w i (bands : list (BandItem A)) s r s' :
  write_bands C w i bands s = (r, s') ->
  exists evs,
    steps s evs s' /\ forallb is_write evs = true /\
    (r = inr tt -> map plane0_of bands = map Some (written_planes evs)).
Proof.
  revert i s. induction bands as [|it bands IH]; intros i s E; cbn in E.
  - apply ret_inv in E as [_ ->]. exists []. split; [apply steps_refl | auto].
  - apply bind_inv in E as [(e & E & ->) | (p & s1 & E & K)].
    { apply plane0_inv in E as [-> _]. exists [].
      split; [apply steps_refl | split; [reflexivity | discriminate]]. }
    apply plane0_inv in E as [-> P0'].
    pose proof (proj1 (P0' p) eq_refl) as P0. clear P0'.
    apply bind_inv in K as [(e & K & ->) | ([] & s2 & K & K2)].
    { apply emit_inv in K as [D _]. discriminate. }
    apply emit_inv in K as [_ S1].
    apply bind_inv in K2 as [(e & K2 & ->) | ([] & s3 & K2 & K3)].
    { apply call_steps in K2. exists [Wrote w p (i + 1)].
      split; [apply (steps_trans _ _ _ _ _ S1 K2) |].
      split; [reflexivity | discriminate]. }
    apply call_steps in K2.
    apply bind_inv in K3 as [(e & K3 & ->) | ([] & s4 & K3 & K4)].
    { apply emit_inv in K3 as [D _]. discriminate. }
    apply emit_inv in K3 as [_ S3].
    pose proof (steps_trans _ _ _ _ _ S1 (steps_trans _ _ _ _ _ K2 S3)) as S13.
    cbn in S13.
    apply bind_inv in K4 as [(e & K4 & ->) | ([] & s5 & K4 & K5)].
    { apply call_steps in K4. eexists.
      split; [apply (steps_trans _ _ _ _ _ S13 K4) |].
      split; [reflexivity | discriminate]. }
    apply call_steps in K4.
    apply IH in K5 as (evs & S5 & W5 & P5).
    exists ([Wrote w p (i + 1); WroteColormap w (i + 1) colormap] ++ evs).
    split.
    { pose proof (steps_trans _ _ _ _ _ S13 (steps_trans _ _ _ _ _ K4 S5)) as St.
      exact St. }
    split; [exact W5 |].
    intros R. cbn. rewrite P0, (P5 R). reflexivity.
Qed.

Lemma update_inv (f : GreppoAppProxy -> GreppoAppProxy) s r s' :
  update f s = (r, s') ->
  r = inr tt /\ proxy s' = f (proxy s) /\ world s' = world s /\ log s' = log s.
Proof. unfold update. intros E. inversion E; subst. cbn. auto. Qed.

Lemma write_image_ok m w (bands : list (BandItem A)) s s' :
  write_image C m w bands s = (inr tt, s') ->
  exists ws data wr,
    log s' = log s ++ ws /\ forallb is_write ws = true /\
    map plane0_of bands = map Some (written_planes ws) /\
    memfile_read C m wr = (inr data, world s') /\
    proxy s' = add_reference data (proxy s).
Proof.
  unfold write_image. intros E.
  apply bind_ok_inv in E as ([] & s1 & E & K).
  apply write_bands_any in E as (ws & [P L] & W & Pl).
  apply bind_ok_inv in K as (data & s2 & K & K2).
  apply call_inv in K as (w' & R & ->).
  apply update_inv in K2 as (_ & P2 & W2 & L2). cbn in *.
  exists ws, data, (world s1). rewrite W2, L2, P2, P. auto.
Qed.

(** A successful run of the two blocks: the calls it made, in order, and
    what it left in the proxy. *)
Lemma encode_and_register_ok id t d v tr wd ht kw (bands : list (BandItem A))
    s s' :
  encode_and_register C id t d v tr wd ht kw bands s = (inr tt, s') ->
  exists m w ws data1 data2 wo wo' wr1 wr1' wc wr2,
    log s' = log s ++ Opened (HMemoryFile m) :: Opened (HWriter w)
                        :: ws ++ [Closed (HWriter w); Closed (HMemoryFile m)] /\
    forallb is_write ws = true /\
    map plane0_of bands = map Some (written_planes ws) /\
    memfile_open C m kw wo = (inr w, wo') /\
    memfile_read C m wr1 = (inr data1, wr1') /\
    dataset_close C w wr1' = (inr tt, wc) /\
    memfile_read C m wc = (inr data2, wr2) /\
    proxy s'
    = add_raster_layer
        (mkRasterLayer id t d (data_uri_prefix ++ Base64.b64encode data2)%string
           (raster_bounds tr wd ht) v)
        (add_reference data1 (proxy s)).
Proof.
  unfold encode_and_register. intros E.
  apply with_inv in E as [(e & _ & D) | (m & s1 & rb & s2 & rx & E & B & X & R)];
    [discriminate|].
  destruct rx as [e' | []]; [discriminate|]. subst rb.
  apply acquire_inv in E
    as [(e' & w' & _ & D & _) | (x & wm & _ & D & [P1 L1] & W1)]; [discriminate|].
  inversion D; subst x. clear D.
  apply release_inv in X as [[P5 L5] _].
  apply bind_ok_inv in B as ([] & s3 & B & K).
  apply with_inv in B as [(e & _ & D) | (w & s1' & rb & s2' & rx & E & B & X & R)];
    [discriminate|].
  destruct rx as [e' | []]; [discriminate|]. subst rb.
  apply acquire_inv in E
    as [(e' & w' & _ & D & _) | (x & wo' & O & D & [P2 L2] & W2)]; [discriminate|].
  inversion D; subst x. clear D.
  apply write_image_ok in B as (ws & data1 & wr1 & L3 & Wr & Pl & R1 & P3).
  apply release_inv in X as [[P4 L4] Cl].
  apply bind_ok_inv in K as (data2 & s4 & K & K2).
  apply call_inv in K as (wr2 & R2 & ->).
  apply update_inv in K2 as (_ & P6 & _ & L6). cbn [proxy log world] in P6, L6.
  exists m, w, ws, data1, data2, (world s1), wo', wr1, (world s2'), (world s3), wr2.
  split.
  { rewrite L5, L6, L4, L3, L2, L1, <- !app_assoc. reflexivity. }
  split; [exact Wr |]. split; [exact Pl |]. split; [exact O |].
  split; [exact R1 |]. split; [exact Cl |]. split; [exact R2 |].
  rewrite P5, P6, P4, P3, P2, P1. reflexivity.
Qed.

(** *** The whole call *)

Lemma raster_layer_unreadable path t d v s id w1 e w2 :
  uuid4_hex C (world s) = (inr id, w1) ->
  rasterio_open C path w1 = (inl e, w2) ->
  raster_layer C path t d v s
  = (inl e, {| proxy := proxy s; world := w2; log := log s |}).
Proof.
  intros U O. unfold raster_layer, bind.
  rewrite (resample_source_unreadable _ _ _ _ _ _ U O). reflexivity.
Qed.

Lemma raster_layer_no_id path t d v s e w1 :
  uuid4_hex C (world s) = (inl e, w1) ->
  raster_layer C path t d v s
  = (inl e, {| proxy := proxy s; world := w1; log := log s |}).
Proof.
  intros U. unfold raster_layer, bind.
  rewrite (resample_source_no_id _ _ _ _ U). reflexivity.
Qed.

(** A successful ingestion, taken apart. *)
Lemma raster_layer_ok path t d v s s' :
  raster_layer C path t d v s = (inr tt, s') ->
  exists r s1,
    resample_source C path s = (inr r, s1) /\
    encode_and_register C (r_id r) t d v (r_transform r) (r_width r) (r_height r)
      (png_profile (r_src_dataset r) (r_transform r) (r_width r) (r_height r)
         (r_dst_bands r))
      (r_dst_bands r) s1 = (inr tt, s').
Proof.
  unfold raster_layer. intros E.
  apply bind_ok_inv in E as (r & s1 & E & K). eauto.
Qed.

Lemma emit_full (ev : Event) s r s' :
  emit ev s = (r, s') ->
  r = inr tt /\
  s' = {| proxy := proxy s; world := world s; log := log s ++ [ev] |}.
Proof. unfold emit. intros E. inversion E. auto. Qed.

(** A write loop that completes has made, for each band in order, the two
    calls on the writer, and has logged them. *)
Lemma write_bands_calls w i (bands : list (BandItem A)) s s' :
  write_bands C w i bands s = (inr tt, s') ->
  exists ps,
    map plane0_of bands = map Some ps /\
    steps s (write_events w i ps) s' /\
    written_through C w i ps (world s) (world s').
Proof.
  revert i s. induction bands as [|it bands IH]; intros i s E; cbn in E.
  - apply ret_inv in E as [_ ->]. exists [].
    split; [reflexivity |]. split; [apply steps_refl | reflexivity].
  - apply bind_ok_inv in E as (p & s1 & E & K).
    apply plane0_inv in E as [-> P0'].
    pose proof (proj1 (P0' p) eq_refl) as P0. clear P0'.
    apply bind_ok_inv in K as ([] & s2 & K & K2).
    apply emit_full in K as [_ ->].
    apply bind_ok_inv in K2 as ([] & s3 & K2 & K3).
    apply call_inv in K2 as (w1 & W1 & ->). cbn [world proxy log] in *.
    apply bind_ok_inv in K3 as ([] & s4 & K3 & K4).
    apply emit_full in K3 as [_ ->]. cbn [world proxy log] in *.
    apply bind_ok_inv in K4 as ([] & s5 & K4 & K5).
    apply call_inv in K4 as (w2 & W2 & ->). cbn [world proxy log] in *.
    apply IH in K5 as (ps & Pl & [Px L] & Wt). cbn [world proxy log] in *.
    exists (p :: ps). split; [cbn; rewrite P0, Pl; reflexivity |]. split.
    + split; [exact Px |]. rewrite L, <- !app_assoc. reflexivity.
    + cbn [written_through]. exists w1, w2. auto.
Qed.

End Stages.

(** ** The operations that are not raster ingestions *)

Section Operations.

Context {A : Type} {NumA : Num A} {H : Host} (C : @Collaborators A H).

Implicit Types s : @State A H.

Lemma keeps_refl s : keeps s s.
Proof. split; reflexivity. Qed.

Lemma keeps_trans s1 s2 s3 : keeps s1 s2 -> keeps s2 s3 -> keeps s1 s3.
Proof. intros [L1 R1] [L2 R2]. split; congruence. Qed.

Lemma preserves_ret {T} (x : T) : preserves (@ret A H T x).
Proof. intros s r s' E. apply ret_inv in E as [_ ->]. apply keeps_refl. Qed.

Lemma preserves_raise {T} (e : Exn) : preserves (@raise A H T e).
Proof. intros s r s' E. inversion E; subst. apply keeps_refl. Qed.

Lemma preserves_call {T} (c : Ext H T) : preserves (@call A H T c).
Proof.
  intros s r s' E. apply call_inv in E as (w' & _ & ->). split; reflexivity.
Qed.

Lemma preserves_get_proxy : preserves (@get_proxy A H).
Proof. intros s r s' E. inversion E; subst. apply keeps_refl. Qed.

Lemma preserves_bind {T U} (m : @M A H T) (k : T -> @M A H U) :
  preserves m -> (forall x, preserves (k x)) -> preserves (bind m k).
Proof.
  intros Pm Pk s r s' E.
  apply bind_inv in E as [(e & E & _) | (x & s1 & E & K)].
  - eapply Pm; eauto.
  - eapply keeps_trans; [eapply Pm | eapply Pk]; eauto.
Qed.

Lemma preserves_update (f : GreppoAppProxy -> GreppoAppProxy) :
  (forall p, raster_layers (f p) = raster_layers p /\
             raster_image_reference (f p) = raster_image_reference p) ->
  preserves (@update A H f).
Proof.
  intros F s r s' E. apply update_inv in E as (_ & P & _ & _).
  unfold keeps. rewrite P. apply F.
Qed.

Lemma preserves_for_each {X Y} (f : X -> @M A H Y) (l : list X) :
  (forall x, preserves (f x)) -> preserves (@for_each A H X Y f l).
Proof.
  intros F. induction l as [|x l IH]; cbn.
  - apply preserves_ret.
  - apply preserves_bind; [apply F | intros y].
    apply preserves_bind; [exact IH | intros ys]. apply preserves_ret.
Qed.

Ltac preserve :=
  repeat first
    [ apply preserves_ret | apply preserves_raise | apply preserves_call
    | apply preserves_get_proxy
    | apply preserves_update; intros ?; split; reflexivity
    | apply preserves_for_each; intros ?
    | apply preserves_bind; [| intros ?] ].

Lemma preserves_register_input x : preserves (register_input C x).
Proof. unfold register_input. preserve. Qed.

Lemma preserves_input_component k kwargs : preserves (input_component C k kwargs).
Proof.
  unfold input_component. preserve.
Qed.

Lemma preserves_append_tile_layer k kwargs :
  preserves (append_tile_layer C k kwargs).
Proof. unfold append_tile_layer. preserve. Qed.

Lemma preserves_base_layer name visible url subdomains attribution :
  preserves (base_layer C name visible url subdomains attribution).
Proof. unfold base_layer. preserve. Qed.

Lemma preserves_overlay_layer data title description style visible :
  preserves (overlay_layer C data title description style visible).
Proof. unfold overlay_layer. preserve. Qed.

Lemma preserves_image_layer path title description visible :
  preserves (image_layer C path title description visible).
Proof.
  unfold image_layer. preserve. destruct (string_in _ _); preserve.
Qed.

Lemma preserves_update_inputs new_inputs :
  preserves (@update_inputs A H new_inputs).
Proof. unfold update_inputs. preserve. Qed.

Lemma preserves_gpo_prepare_data : preserves (gpo_prepare_data C).
Proof. unfold gpo_prepare_data. preserve. Qed.

Lemma preserves_gpo_reference_data : preserves (@gpo_reference_data A H).
Proof.
  unfold gpo_reference_data. preserve. destruct (Nat.eqb _ _); preserve.
Qed.

(** A successful ingestion appends one record and one buffer. *)
Lemma raster_layer_appends path t d v s s' :
  raster_layer C path t d v s = (inr tt, s') ->
  exists l b,
    raster_layers (proxy s') = raster_layers (proxy s) ++ [l] /\
    raster_image_reference (proxy s') = raster_image_reference (proxy s) ++ [b].
Proof.
  intros E. apply raster_layer_ok in E as (r & s1 & E & K).
  apply resample_source_ok in E as [[P _] _].
  apply encode_and_register_ok in K
    as (m & w & ws & data1 & data2 & wo & wo' & wr1 & wr1' & wc & wr2 & K).
  destruct K as (_ & _ & _ & _ & _ & _ & _ & K). rewrite K, P.
  eexists. exists data1. split; reflexivity.
Qed.

Lemma preserves_discard {T} (m : @M A H T) : preserves m -> preserves (discard m).
Proof. intros P. unfold discard. preserve. exact P. Qed.

(** What one successful operation does to the two lists. *)
Lemma run_op_lists op s s' :
  run_op C op s = (inr tt, s') ->
  match op with
  | OpRasterLayer _ _ _ _ =>
      exists l b,
        raster_layers (proxy s') = raster_layers (proxy s) ++ [l] /\
        raster_image_reference (proxy s')
        = raster_image_reference (proxy s) ++ [b]
  | _ => keeps s s'
  end.
Proof.
  destruct op; cbn; intros E.
  - exact (preserves_discard _ (preserves_input_component _ _) _ _ _ E).
  - exact (preserves_append_tile_layer _ _ _ _ _ E).
  - exact (preserves_append_tile_layer _ _ _ _ _ E).
  - exact (preserves_base_layer _ _ _ _ _ _ _ _ E).
  - exact (preserves_overlay_layer _ _ _ _ _ _ _ _ E).
  - exact (raster_layer_appends _ _ _ _ _ _ E).
  - exact (preserves_image_layer _ _ _ _ _ _ _ E).
  - exact (preserves_update_inputs _ _ _ _ E).
  - exact (preserves_discard _ (preserves_register_input _) _ _ _ E).
  - exact (preserves_discard _ preserves_gpo_prepare_data _ _ _ E).
  - exact (preserves_discard _ preserves_gpo_reference_data _ _ _ E).
Qed.

End Operations.

(** ** Lists and logs *)

Lemma appended_app {X} (l x : list X) : appended l (l ++ x) = x.
Proof.
  unfold appended. rewrite skipn_app, skipn_all, Nat.sub_diag. reflexivity.
Qed.

Lemma appended_same {X} (l : list X) : appended l l = [].
Proof. unfold appended. apply skipn_all. Qed.

Lemma combine_snoc {X Y} (l : list X) (r : list Y) x y :
  List.length l = List.length r ->
  combine (l ++ [x]) (r ++ [y]) = combine l r ++ [(x, y)].
Proof.
  revert r. induction l as [|a l IH]; intros [|b r] L; try discriminate.
  - reflexivity.
  - cbn. rewrite IH; [reflexivity | now inversion L].
Qed.

Lemma written_planes_app (e1 e2 : list Event) :
  written_planes (e1 ++ e2) = written_planes e1 ++ written_planes e2.
Proof.
  induction e1 as [|[h | h | w p i | w i c] e1 IH]; cbn; try exact IH.
  - reflexivity.
  - now rewrite IH.
Qed.




(** ** Scripts *)

Section Scripts.

Context {A : Type} {NumA : Num A} {H : Host} (C : @Collaborators A H).

Implicit Types s : @State A H.

Lemma gpo_reference_data_eq s :
  gpo_reference_data s = (inr (hd_error (raster_image_reference (proxy s))), s).
Proof.
  unfold gpo_reference_data, bind, get_proxy, ret.
  destruct (raster_image_reference (proxy s)); reflexivity.
Qed.

(** Successful operations only ever add at the end of the reference list. *)
Lemma run_ops_reference_prefix ops s s' :
  run_ops C ops s = (inr tt, s') ->
  exists more,
    raster_image_reference (proxy s') = raster_image_reference (proxy s) ++ more.
Proof.
  revert s. induction ops as [|op ops IH]; intros s E; cbn in E.
  - apply ret_inv in E as [_ ->]. exists []. now rewrite app_nil_r.
  - apply bind_ok_inv in E as ([] & s1 & E & K).
    apply IH in K as (more & ->).
    apply run_op_lists in E.
    destruct op; try (destruct E as [_ ->]; eauto; fail).
    destruct E as (l & b & _ & ->). exists (b :: more).
    rewrite <- app_assoc. reflexivity.
Qed.

Lemma run_ops_pairs ops s s' :
  List.length (raster_layers (proxy s))
  = List.length (raster_image_reference (proxy s)) ->
  run_ops C ops s = (inr tt, s') ->
  List.length (raster_layers (proxy s'))
  = List.length (raster_image_reference (proxy s')) /\
  combine (raster_layers (proxy s')) (raster_image_reference (proxy s'))
  = combine (raster_layers (proxy s)) (raster_image_reference (proxy s))
      ++ produced C ops s.
Proof.
  revert s. induction ops as [|op ops IH]; intros s L E; cbn in E.
  - apply ret_inv in E as [_ ->]. cbn. rewrite app_nil_r. auto.
  - apply bind_ok_inv in E as ([] & s1 & E & K).
    cbn [produced]. rewrite E.
    pose proof (run_op_lists C _ _ _ E) as Eff.
    assert (Step :
      List.length (raster_layers (proxy s1))
      = List.length (raster_image_reference (proxy s1)) /\
      combine (raster_layers (proxy s1)) (raster_image_reference (proxy s1))
      = combine (raster_layers (proxy s)) (raster_image_reference (proxy s))
          ++ combine
               (appended (raster_layers (proxy s)) (raster_layers (proxy s1)))
               (appended (raster_image_reference (proxy s))
                  (raster_image_reference (proxy s1)))).
    { destruct op;
        try (destruct Eff as [-> ->]; rewrite !appended_same, app_nil_r;
             split; [exact L | reflexivity]).
      destruct Eff as (l & b & -> & ->). rewrite !appended_app. split.
      - rewrite !length_app. cbn. now rewrite L.
      - apply combine_snoc. exact L. }
    destruct Step as [L1 C1].
    destruct (IH _ L1 K) as [L2 C2]. split; [exact L2 |].
    rewrite C2, C1, <- app_assoc. reflexivity.
Qed.

End Scripts.

(** * The claims *)

(** C7.  When [rasterio.open] raises on the path, the call ends with an
    exception (the one [rasterio.open] raised) and the session is as it
    was: the proxy is unchanged, so nothing was appended to the raster
    layer list or to the reference-image list, and nothing was logged. *)
Theorem unreadable_source_changes_nothing {A} {NumA : Num A} {H : Host}
    (C : @Collaborators A H) (path t d : string) (v : bool) (s : @State A H)
    (e : Exn) :
  fst (rasterio_open C path (snd (uuid4_hex C (world s)))) = inl e ->
  exists e' s',
    raster_layer C path t d v s = (inl e', s') /\
    proxy s' = proxy s /\
    raster_layers (proxy s') = raster_layers (proxy s) /\
    raster_image_reference (proxy s') = raster_image_reference (proxy s) /\
    log s' = log s /\
    (forall id, fst (uuid4_hex C (world s)) = inr id -> e' = e).
Proof.
  intros O.
  destruct (uuid4_hex C (world s)) as [[e0 | id] w1] eqn:U; cbn in O.
  - eexists e0, _. split; [apply raster_layer_no_id; exact U |].
    cbn. repeat split; auto. intros id D. discriminate.
  - destruct (rasterio_open C path w1) as [r w2] eqn:O'. cbn in O. subst r.
    eexists e, _. split; [eapply raster_layer_unreadable; eauto |].
    cbn. repeat split; auto.
Qed.

Lemma unreadable_source_witness :
  fst (rasterio_open (Double.collaborators Double.script) "zz.tif"
         (snd (uuid4_hex (Double.collaborators Double.script)
                 (world Double.start))))
  = inl (Raised "RasterioIOError") /\
  exists e' s',
    raster_layer (Double.collaborators Double.script) "zz.tif" "t" "d" true
      Double.start = (inl e', s') /\
    proxy s' = proxy Double.start /\
    raster_layers (proxy s') = raster_layers (proxy Double.start) /\
    raster_image_reference (proxy s')
    = raster_image_reference (proxy Double.start) /\
    log s' = log Double.start /\
    (forall id,
        fst (uuid4_hex (Double.collaborators Double.script)
               (world Double.start)) = inr id ->
        e' = Raised "RasterioIOError").
Proof.
  split; [reflexivity |].
  apply (unreadable_source_changes_nothing
           (Double.collaborators Double.script) "zz.tif" "t" "d" true
           Double.start (Raised "RasterioIOError")).
  reflexivity.
Defined.

(** C8.  [gpo_reference_data] answers [None], not an empty buffer, while
    nothing has been recorded (so on a new proxy); and once a first
    ingestion has succeeded, it answers the bytes that ingestion recorded,
    after any further successful operations, ingestions included. *)
Theorem reference_is_first_recorded {A} {NumA : Num A} {H : Host}
    (C : @Collaborators A H) (s : @State A H) :
  raster_image_reference (proxy s) = [] ->
  gpo_reference_data s = (inr None, s) /\
  (@None bytes) <> Some [] /\
  forall path t d v s1,
    raster_layer C path t d v s = (inr tt, s1) ->
    exists b,
      raster_image_reference (proxy s1) = [b] /\
      forall ops s2,
        run_ops C ops s1 = (inr tt, s2) ->
        gpo_reference_data s2 = (inr (Some b), s2).
Proof.
  intros E. split; [| split].
  - rewrite gpo_reference_data_eq, E. reflexivity.
  - discriminate.
  - intros path t d v s1 R.
    apply raster_layer_appends in R as (l & b & _ & R). rewrite E in R.
    exists b. split; [exact R |].
    intros ops s2 K. apply run_ops_reference_prefix in K as (more & K).
    rewrite gpo_reference_data_eq, K, R. reflexivity.
Qed.

Lemma reference_is_first_recorded_witness :
  raster_image_reference (proxy Double.start) = [] /\
  gpo_reference_data Double.start = (inr None, Double.start) /\
  (@None bytes) <> Some [] /\
  forall path t d v s1,
    raster_layer (Double.collaborators Double.script) path t d v Double.start
    = (inr tt, s1) ->
    exists b,
      raster_image_reference (proxy s1) = [b] /\
      forall ops s2,
        run_ops (Double.collaborators Double.script) ops s1 = (inr tt, s2) ->
        gpo_reference_data s2 = (inr (Some b), s2).
Proof.
  split; [reflexivity |].
  apply (reference_is_first_recorded (Double.collaborators Double.script)
           Double.start).
  reflexivity.
Defined.

(** C10.  A successful [raster_layer] appends exactly one record to
    [raster_layers] and exactly one buffer to [raster_image_reference];
    every other public operation leaves both lists as they are.  Hence,
    from a state where the lists have equal length (a new proxy: both
    empty), after any script of successful operations they have equal
    length, and pairing them index by index gives the earlier pairs
    followed by what each operation appended, in order: record [i] and
    buffer [i] come from the same ingestion. *)
Theorem layers_and_references_in_step {A} {NumA : Num A} {H : Host}
    (C : @Collaborators A H) (ops : list (Op H)) (s s' : @State A H) :
  run_ops C ops s = (inr tt, s') ->
  (forall op s1 s2,
      run_op C op s1 = (inr tt, s2) ->
      match op with
      | OpRasterLayer _ _ _ _ =>
          exists l b,
            raster_layers (proxy s2) = raster_layers (proxy s1) ++ [l] /\
            raster_image_reference (proxy s2)
            = raster_image_reference (proxy s1) ++ [b]
      | _ => keeps s1 s2
      end) /\
  (List.length (raster_layers (proxy s))
   = List.length (raster_image_reference (proxy s)) ->
   List.length (raster_layers (proxy s'))
   = List.length (raster_image_reference (proxy s')) /\
   combine (raster_layers (proxy s')) (raster_image_reference (proxy s'))
   = combine (raster_layers (proxy s)) (raster_image_reference (proxy s))
       ++ produced C ops s).
Proof.
  intros E. split.
  - intros op s1 s2. apply run_op_lists.
  - intros L. apply run_ops_pairs; assumption.
Qed.

Lemma layers_and_references_witness :
  run_ops (Double.collaborators Double.script) Double.session Double.start
  = (inr tt,
     snd (run_ops (Double.collaborators Double.script) Double.session
            Double.start)) /\
  List.length (raster_layers (proxy Double.start))
  = List.length (raster_image_reference (proxy Double.start)) /\
  List.length
    (raster_layers
       (proxy (snd (run_ops (Double.collaborators Double.script)
                      Double.session Double.start)))) = 2%nat /\
  List.length
    (raster_image_reference
       (proxy (snd (run_ops (Double.collaborators Double.script)
                      Double.session Double.start)))) = 2%nat.
Proof.
  assert (R : run_ops (Double.collaborators Double.script) Double.session
                Double.start
              = (inr tt,
                 snd (run_ops (Double.collaborators Double.script)
                        Double.session Double.start)))
    by (vm_compute; reflexivity).
  split; [exact R |]. split; [reflexivity |].
  destruct (layers_and_references_in_step
              (Double.collaborators Double.script) Double.session Double.start
              _ R) as [_ Pairs].
  destruct (Pairs eq_refl) as [Len _].
  split; [| rewrite <- Len]; vm_compute; reflexivity.
Defined.

(** ** Successful ingestions *)

Lemma raster_bounds_eq {A} {NumA : Num A} (tr : Affine.t A) (wd ht : Z) :
  raster_bounds tr wd ht
  = [[snd (Affine.mul_point tr (of_Z wd, of_Z ht));
      fst (Affine.mul_point tr (of_Z 0, of_Z 0))];
     [snd (Affine.mul_point tr (of_Z 0, of_Z 0));
      fst (Affine.mul_point tr (of_Z wd, of_Z ht))]].
Proof.
  unfold raster_bounds.
  destruct (Affine.mul_point tr (of_Z 0, of_Z 0)) as [x0 y0].
  destruct (Affine.mul_point tr (of_Z wd, of_Z ht)) as [x1 y1].
  reflexivity.
Qed.

(** C1, amended.  The stored bounds are made from the two corner points
    [(x0, y0) = transform * (0, 0)] and [(x1, y1) = transform * (width,
    height)] of the computed grid as [[[y1, x0], [y0, x1]]]: in each pair
    the second (latitude-like) coordinate comes first, and each pair takes
    its two coordinates from different corners.  For the identity grid
    with width and height 10 this is [[[10, 0], [0, 10]]]. *)
Theorem raster_bounds_from_corners {A} {NumA : Num A} {H : Host}
    (C : @Collaborators A H) (path t d : string) (v : bool)
    (s s' : @State A H) :
  raster_layer C path t d v s = (inr tt, s') ->
  exists ds tr wd ht w w' l,
    calculate_default_transform C (ds_crs ds) dst_crs (ds_width ds)
      (ds_height ds) (ds_bounds ds) w = (inr (tr, wd, ht), w') /\
    raster_layers (proxy s') = raster_layers (proxy s) ++ [l] /\
    rl_bounds l
    = [[snd (Affine.mul_point tr (of_Z wd, of_Z ht));
        fst (Affine.mul_point tr (of_Z 0, of_Z 0))];
       [snd (Affine.mul_point tr (of_Z 0, of_Z 0));
        fst (Affine.mul_point tr (of_Z wd, of_Z ht))]] /\
    @raster_bounds Q Num_Q Affine.identity 10 10 = [[10; 0]; [0; 10]].
Proof.
  intros E. apply raster_layer_ok in E as (r & s1 & E & K).
  apply resample_source_ok in E as ([P _] & (w1 & w2 & w3 & _ & _ & T) & _).
  apply encode_and_register_ok in K
    as (m & w & ws & data1 & data2 & wo & wo' & wr1 & wr1' & wc & wr2 & K).
  destruct K as (_ & _ & _ & _ & _ & _ & _ & K).
  exists (r_src_dataset r), (r_transform r), (r_width r), (r_height r), w2, w3.
  eexists. split; [exact T |]. split; [rewrite K, P; reflexivity |].
  split; [apply raster_bounds_eq | reflexivity].
Qed.

Lemma raster_bounds_from_corners_witness :
  raster_layer (Double.collaborators Double.script) "a.tif" "t" "d" true
    Double.start
  = (inr tt,
     snd (raster_layer (Double.collaborators Double.script) "a.tif" "t" "d"
            true Double.start)) /\
  Double.grid Double.script = (Affine.identity, 10%Z, 10%Z) /\
  map rl_bounds
    (raster_layers
       (proxy (snd (raster_layer (Double.collaborators Double.script) "a.tif"
                      "t" "d" true Double.start))))
  = [[[10; 0]; [0; 10]]].
Proof.
  assert (R : raster_layer (Double.collaborators Double.script) "a.tif" "t" "d"
                true Double.start
              = (inr tt,
                 snd (raster_layer (Double.collaborators Double.script) "a.tif"
                        "t" "d" true Double.start)))
    by (vm_compute; reflexivity).
  split; [exact R |]. split; [reflexivity |].
  destruct (raster_bounds_from_corners _ _ _ _ _ _ _ R)
    as (ds & tr & wd & ht & w & w' & l & T & L & B & _).
  rewrite L. cbn [Double.start proxy raster_layers GreppoAppProxy_init app map].
  rewrite B. vm_compute in T. inversion T; subst. reflexivity.
Defined.

(** C1, as stated, fails: with the identity grid, width 10 and height 10
    the stored bounds are [[[10, 0], [0, 10]]], not [[[0, 0], [10, 10]]]. *)
Lemma identity_bounds_counterexample :
  fst (raster_layer (Double.collaborators Double.script) "a.tif" "t" "d" true
         Double.start) = inr tt /\
  Double.grid Double.script = (Affine.identity, 10%Z, 10%Z) /\
  map rl_bounds
    (raster_layers
       (proxy (snd (raster_layer (Double.collaborators Double.script) "a.tif"
                      "t" "d" true Double.start))))
  = [[[10; 0]; [0; 10]]] /\
  [[10; 0]; [0; 10]] <> bounds_as_claimed /\
  ~ Forall2 (Forall2 Qeq) [[10; 0]; [0; 10]] bounds_as_claimed.
Proof.
  split; [vm_compute; reflexivity |]. split; [reflexivity |].
  split; [vm_compute; reflexivity |]. split; [discriminate |].
  intros F. inversion F as [| ? ? ? ? F1 _]; subst.
  inversion F1 as [| ? ? ? ? Q1 _]; subst. discriminate Q1.
Qed.

(** Everything a successful ingestion did, in one place. *)
Lemma raster_layer_summary {A} {NumA : Num A} {H : Host}
    (C : @Collaborators A H) (path t d : string) (v : bool)
    (s s' : @State A H) :
  raster_layer C path t d v s = (inr tt, s') ->
  exists ds tr wd ht bands arr0 t0 rest id,
    (exists w1 w2 w3,
        rasterio_open C path w1 = (inr ds, w2) /\
        calculate_default_transform C (ds_crs ds) dst_crs (ds_width ds)
          (ds_height ds) (ds_bounds ds) w2 = (inr (tr, wd, ht), w3)) /\
    Forall2 (resampled_from C ds) (seq 0 (ds_count ds)) bands /\
    pad_bands ds bands = bands /\
    bands = Reprojected arr0 t0 :: rest /\
    let alpha := Reprojected (astype (alpha_mask arr0) "uint8") t0 in
    exists m w data1 data2 wo wo' wr1 wr1' wc wr2,
      map plane0_of (bands ++ [alpha])
      = map Some (written_planes (appended (log s) (log s'))) /\
      memfile_open C m (png_profile ds tr wd ht (bands ++ [alpha])) wo
      = (inr w, wo') /\
      memfile_read C m wr1 = (inr data1, wr1') /\
      dataset_close C w wr1' = (inr tt, wc) /\
      memfile_read C m wc = (inr data2, wr2) /\
      proxy s'
      = add_raster_layer
          (mkRasterLayer id t d
             (data_uri_prefix ++ Base64.b64encode data2)%string
             (raster_bounds tr wd ht) v)
          (add_reference data1 (proxy s)).
Proof.
  intros E. apply raster_layer_ok in E as (r & s1 & E & K).
  apply resample_source_ok in E
    as ([P L] & (w1 & w2 & w3 & _ & O & T)
        & (bands & arr0 & t0 & rest & F & Pad & B & D)).
  apply encode_and_register_ok in K
    as (m & w & ws & data1 & data2 & wo & wo' & wr1 & wr1' & wc & wr2 & K).
  destruct K as (L2 & _ & Pl & Op & R1 & Cl & R2 & Px).
  exists (r_src_dataset r), (r_transform r), (r_width r), (r_height r),
    bands, arr0, t0, rest, (r_id r).
  split; [exists w1, w2, w3; auto |].
  split; [exact F |]. split; [exact Pad |]. split; [exact B |].
  intros alpha. exists m, w, data1, data2, wo, wo', wr1, wr1', wc, wr2.
  rewrite D in Pl, Op. fold alpha in Pl, Op.
  split.
  { rewrite Pl, L2, L, <- app_assoc, appended_app. cbn [app written_planes].
    rewrite written_planes_app. cbn. now rewrite app_nil_r. }
  split; [exact Op |]. split; [exact R1 |]. split; [exact Cl |].
  split; [exact R2 |]. rewrite Px, P. reflexivity.
Qed.

(** C3.  With [B] the band count of the source: whenever lines 173 to
    199 return, the band list had exactly [B] elements when the alpha band
    was appended, the padding loop having added none (for [B = 3] and for
    every other [B]), and has [B + 1] after.  That list is the one the
    encoding receives, whether the encoding then succeeds or not: the
    writer is asked for [B + 1] bands, and a write loop that completes on
    it has made the two writer calls for each of [B + 1] planes, element
    [[0][0]] of each entry in order. *)
Theorem band_list_length {A} {NumA : Num A} {H : Host}
    (C : @Collaborators A H) (path : string) (s s1 : @State A H)
    (r : Resampled A) :
  resample_source C path s = (inr r, s1) ->
  exists bands alpha,
    Forall2 (resampled_from C (r_src_dataset r))
      (seq 0 (ds_count (r_src_dataset r))) bands /\
    List.length bands = ds_count (r_src_dataset r) /\
    pad_bands (r_src_dataset r) bands = bands /\
    r_dst_bands r = bands ++ [alpha] /\
    List.length (r_dst_bands r) = (ds_count (r_src_dataset r) + 1)%nat /\
    p_count (png_profile (r_src_dataset r) (r_transform r) (r_width r)
               (r_height r) (r_dst_bands r))
    = (ds_count (r_src_dataset r) + 1)%nat /\
    (forall t d v,
        raster_layer C path t d v s
        = encode_and_register C (r_id r) t d v (r_transform r) (r_width r)
            (r_height r)
            (png_profile (r_src_dataset r) (r_transform r) (r_width r)
               (r_height r) (r_dst_bands r))
            (r_dst_bands r) s1) /\
    (forall dst_file i sa sb,
        write_bands C dst_file i (r_dst_bands r) sa = (inr tt, sb) ->
        exists ps,
          List.length ps = (ds_count (r_src_dataset r) + 1)%nat /\
          map plane0_of (r_dst_bands r) = map Some ps /\
          written_through C dst_file i ps (world sa) (world sb)).
Proof.
  intros E.
  destruct (resample_source_ok C _ _ _ _ E)
    as (_ & _ & bands & arr0 & t0 & rest & F & Pad & B & D).
  pose proof (Forall2_length F) as L. rewrite length_seq in L. symmetry in L.
  assert (L1 : List.length (r_dst_bands r)
               = (ds_count (r_src_dataset r) + 1)%nat)
    by (rewrite D, length_app, L; reflexivity).
  exists bands, (Reprojected (astype (alpha_mask arr0) "uint8") t0).
  split; [exact F |]. split; [exact L |]. split; [exact Pad |].
  split; [exact D |]. split; [exact L1 |]. split; [exact L1 |]. split.
  - intros t d v. unfold raster_layer, bind. rewrite E. reflexivity.
  - intros dst_file i sa sb W.
    apply write_bands_calls in W as (ps & Pl & _ & Wt).
    exists ps. split; [| split; [exact Pl | exact Wt]].
    apply (f_equal (@List.length _)) in Pl. rewrite !length_map in Pl.
    rewrite <- Pl. exact L1.
Qed.

Lemma band_list_length_witness :
  resample_source (Double.collaborators Double.script) "b.tif" Double.start
  = (inr (match fst (resample_source (Double.collaborators Double.script)
                       "b.tif" Double.start) with
          | inr r => r
          | inl _ =>
              mkResampled "" (Double.dataset "b.tif" 2) Affine.identity 0 0 []
          end),
     snd (resample_source (Double.collaborators Double.script) "b.tif"
            Double.start)) /\
  exists r,
    fst (resample_source (Double.collaborators Double.script) "b.tif"
           Double.start) = inr r /\
    ds_count (r_src_dataset r) = 2%nat /\
    List.length (r_dst_bands r) = 3%nat.
Proof.
  assert (R : resample_source (Double.collaborators Double.script) "b.tif"
                Double.start
              = (inr (match fst (resample_source
                                   (Double.collaborators Double.script)
                                   "b.tif" Double.start) with
                      | inr r => r
                      | inl _ =>
                          mkResampled "" (Double.dataset "b.tif" 2)
                            Affine.identity 0 0 []
                      end),
                 snd (resample_source (Double.collaborators Double.script)
                        "b.tif" Double.start)))
    by (vm_compute; reflexivity).
  split; [exact R |].
  destruct (band_list_length _ _ _ _ _ R)
    as (bands & alpha & _ & _ & _ & _ & L & _).
  eexists. split; [rewrite R; reflexivity |].
  split; [vm_compute; reflexivity | exact L].
Defined.







(** The memory file is read twice by a successful ingestion: once inside
    the inner [with] block, before the writer is closed (line 223), and
    once after it (line 227).  The first read is what the reference list
    receives; the second is what the data URI encodes. *)
Lemma two_reads_of_the_memory_file {A} {NumA : Num A} {H : Host}
    (C : @Collaborators A H) (path t d : string) (v : bool)
    (s s' : @State A H) :
  raster_layer C path t d v s = (inr tt, s') ->
  exists l m w data1 data2 wr1 wr1' wc wr2,
    raster_layers (proxy s') = raster_layers (proxy s) ++ [l] /\
    raster_image_reference (proxy s')
    = raster_image_reference (proxy s) ++ [data1] /\
    memfile_read C m wr1 = (inr data1, wr1') /\
    dataset_close C w wr1' = (inr tt, wc) /\
    memfile_read C m wc = (inr data2, wr2) /\
    rl_url l = (data_uri_prefix ++ Base64.b64encode data2)%string /\
    payload (rl_url l) = Some data2.
Proof.
  intros E. apply raster_layer_summary in E
    as (ds & tr & wd & ht & bands & arr0 & t0 & rest & id
        & _ & _ & _ & _ & K).
  cbv zeta in K.
  destruct K as (m & w & data1 & data2 & wo & wo' & wr1 & wr1' & wc & wr2 & K).
  destruct K as (_ & _ & R1 & Cl & R2 & Px).
  eexists _, m, w, data1, data2, wr1, wr1', wc, wr2.
  split; [rewrite Px; reflexivity |]. split; [rewrite Px; reflexivity |].
  split; [exact R1 |]. split; [exact Cl |]. split; [exact R2 |].
  split; [reflexivity |]. apply payload_data_uri.
Qed.

Lemma two_reads_of_the_memory_file_witness :
  raster_layer (Double.collaborators Double.script) "a.tif" "t" "d" true
    Double.start
  = (inr tt,
     snd (raster_layer (Double.collaborators Double.script) "a.tif" "t" "d"
            true Double.start)) /\
  exists l data1 data2,
    raster_layers
      (proxy (snd (raster_layer (Double.collaborators Double.script) "a.tif"
                     "t" "d" true Double.start))) = [l] /\
    raster_image_reference
      (proxy (snd (raster_layer (Double.collaborators Double.script) "a.tif"
                     "t" "d" true Double.start))) = [data1] /\
    payload (rl_url l) = Some data2.
Proof.
  assert (R : raster_layer (Double.collaborators Double.script) "a.tif" "t" "d"
                true Double.start
              = (inr tt,
                 snd (raster_layer (Double.collaborators Double.script) "a.tif"
                        "t" "d" true Double.start)))
    by (vm_compute; reflexivity).
  split; [exact R |].
  destruct (two_reads_of_the_memory_file _ _ _ _ _ _ _ R)
    as (l & m & w & data1 & data2 & wr1 & wr1' & wc & wr2 & L & Rf & _ & _ & _
        & _ & P).
  exists l, data1, data2. split; [exact L |]. split; [exact Rf | exact P].
Defined.

(** C5.  The ingestion of the one-band raster, on a new proxy, with a
    memory file that holds the image once its writer is closed (the PNG
    driver encodes at close): the reference recorded at line 223, read
    while the writer is still open, is the empty byte string, and the
    data URI, read at line 227 after the close, carries the whole image.
    The payload of the URI does not decode to the recorded reference. *)
Theorem reference_read_before_close :
  fst (raster_layer (Double.collaborators Double.script) "a.tif" "t" "d" true
         Double.start) = inr tt /\
  exists l,
    raster_layers
      (proxy (snd (raster_layer (Double.collaborators Double.script) "a.tif"
                     "t" "d" true Double.start))) = [l] /\
    raster_image_reference
      (proxy (snd (raster_layer (Double.collaborators Double.script) "a.tif"
                     "t" "d" true Double.start))) = [[]] /\
    payload (rl_url l)
    = Some ["P"; "N"; "G"; "005"; "000"; "001"; "001"; "001"; "000"]%byte /\
    ~ uri_carries_reference l [].
Proof.
  split; [vm_compute; reflexivity |].
  eexists. split; [vm_compute; reflexivity |].
  split; [vm_compute; reflexivity |].
  assert (P : payload "data:image/png;base64,UE5HBQABAQEA"
              = Some ["P"; "N"; "G"; "005"; "000"; "001"; "001"; "001"; "000"]%byte)
    by (vm_compute; reflexivity).
  split; [exact P |].
  unfold uri_carries_reference. cbn [rl_url]. rewrite P. discriminate.
Qed.

(** C6, amended.  [overlay_layer] does not validate the bounds and has no
    failure of its own: whatever the four bound values are, rectangle or
    not, once an identifier is drawn the outcome is decided by the zoom
    estimator alone.  If it returns [z], a layer is appended whose view is
    [((miny + maxy) / 2, (minx + maxx) / 2, z)], with the estimator called
    on [[miny, minx, maxy, maxx]]; if it raises, that exception goes on
    and the proxy is unchanged. *)
Theorem overlay_viewport_unguarded {A} {NumA : Num A} {H : Host}
    (C : @Collaborators A H) (data : host_Gdf H) (t d : string)
    (style : host_Style H) (v : bool) (s : @State A H) (id : string)
    (w1 : host_W H) :
  uuid4_hex C (world s) = (inr id, w1) ->
  let minx := bounds_minx_min C data in
  let miny := bounds_miny_min C data in
  let maxx := bounds_maxx_max C data in
  let maxy := bounds_maxy_max C data in
  (forall z w2,
      osm_Map_z C [miny; minx; maxy; maxx] w1 = (inr z, w2) ->
      overlay_layer C data t d style v s
      = (inr tt,
         {| proxy :=
              add_overlay_layer
                (mkOverlayLayer id data t d style v
                   (ndiv (nadd miny maxy) (of_Z 2),
                    ndiv (nadd minx maxx) (of_Z 2), z))
                (proxy s);
            world := w2; log := log s |})) /\
  (forall e w2,
      osm_Map_z C [miny; minx; maxy; maxx] w1 = (inl e, w2) ->
      overlay_layer C data t d style v s
      = (inl e, {| proxy := proxy s; world := w2; log := log s |})).
Proof.
  intros U minx miny maxx maxy. split.
  - intros z w2 Z. unfold overlay_layer, bind, call, update.
    rewrite U. cbn. fold minx miny maxx maxy. rewrite Z. reflexivity.
  - intros e w2 Z. unfold overlay_layer, bind, call.
    rewrite U. cbn. fold minx miny maxx maxy. rewrite Z. reflexivity.
Qed.

Lemma overlay_viewport_witness :
  uuid4_hex (Double.collaborators Double.script) (world Double.start)
  = (inr "id0", snd (uuid4_hex (Double.collaborators Double.script)
                       (world Double.start))) /\
  nonempty_rectangle 3 4 3 4 = false /\
  fst (@overlay_layer Q Num_Q Double.host (Double.collaborators Double.script)
         (3, 4, 3, 4) "t" "d" tt true Double.start) = inr tt /\
  map (@ol_viewzoom Q Double.host)
    (overlay_layers
       (proxy (snd (@overlay_layer Q Num_Q Double.host
                      (Double.collaborators Double.script)
                      (3, 4, 3, 4) "t" "d" tt true Double.start))))
  = [(4, 3, 7%Z)].
Proof.
  assert (U : uuid4_hex (Double.collaborators Double.script)
                (world Double.start)
              = (inr "id0", snd (uuid4_hex (Double.collaborators Double.script)
                                   (world Double.start))))
    by reflexivity.
  split; [exact U |]. split; [reflexivity |].
  destruct (overlay_viewport_unguarded (Double.collaborators Double.script)
              ((3, 4, 3, 4) : host_Gdf Double.host) "t" "d"
              (tt : host_Style Double.host) true Double.start _ _ U)
    as [Ok _].
  rewrite (Ok 7%Z _ eq_refl). split; reflexivity.
Defined.

(** C6, as stated, fails: on the bounds of a single point, which enclose
    nothing, [overlay_layer] returns and appends a layer; and on the
    scenario of the specification the centre is [(10, 5)]. *)
Lemma empty_geometry_counterexample :
  nonempty_rectangle 3 4 3 4 = false /\
  fst (@overlay_layer Q Num_Q Double.host (Double.collaborators Double.script)
         (3, 4, 3, 4) "t" "d" tt true Double.start) = inr tt /\
  ~ @rejects_empty_geometry Double.host (Double.collaborators Double.script)
      (3, 4, 3, 4) Double.start.
Proof.
  split; [reflexivity |]. split; [reflexivity |].
  intros R. specialize (R eq_refl "t" "d" tt true). discriminate R.
Qed.

(** * Further properties of the methods *)

(** ** Lists only grow *)

Section Growth.

Context {A : Type} {NumA : Num A} {H : Host} (C : @Collaborators A H).

Implicit Types s : @State A H.

Lemma extends_refl {X} (l : list X) : extends l l.
Proof. exists []. now rewrite app_nil_r. Qed.

Lemma extends_trans {X} (l1 l2 l3 : list X) :
  extends l1 l2 -> extends l2 l3 -> extends l1 l3.
Proof.
  intros [m1 ->] [m2 ->]. exists (m1 ++ m2). now rewrite app_assoc.
Qed.

Lemma extends_snoc {X} (l : list X) (x : X) : extends l (l ++ [x]).
Proof. exists [x]. reflexivity. Qed.

Lemma grows_refl (p : @GreppoAppProxy A H) : grows p p.
Proof. repeat split; apply extends_refl. Qed.

Lemma grows_trans (p1 p2 p3 : @GreppoAppProxy A H) :
  grows p1 p2 -> grows p2 p3 -> grows p1 p3.
Proof.
  intros (a1 & a2 & a3 & a4 & a5 & a6 & a7) (b1 & b2 & b3 & b4 & b5 & b6 & b7).
  repeat split; eapply extends_trans; eauto.
Qed.

Lemma steps_grows s evs s' : steps s evs s' -> grows (proxy s) (proxy s').
Proof. intros [-> _]. apply grows_refl. Qed.

Lemma monotone_ret {T} (x : T) : monotone (@ret A H T x).
Proof. intros s r s' E. apply ret_inv in E as [_ ->]. apply grows_refl. Qed.

Lemma monotone_raise {T} (e : Exn) : monotone (@raise A H T e).
Proof. intros s r s' E. inversion E; subst. apply grows_refl. Qed.

Lemma monotone_call {T} (c : Ext H T) : monotone (@call A H T c).
Proof. intros s r s' E. apply call_steps in E. eapply steps_grows; eauto. Qed.

Lemma monotone_emit (ev : Event) : monotone (@emit A H ev).
Proof. intros s r s' E. apply emit_inv in E as [_ E]. eapply steps_grows; eauto. Qed.

Lemma monotone_get_proxy : monotone (@get_proxy A H).
Proof. intros s r s' E. inversion E; subst. apply grows_refl. Qed.

Lemma monotone_bind {T U} (m : @M A H T) (k : T -> @M A H U) :
  monotone m -> (forall x, monotone (k x)) -> monotone (bind m k).
Proof.
  intros Pm Pk s r s' E.
  apply bind_inv in E as [(e & E & _) | (x & s1 & E & K)].
  - eapply Pm; eauto.
  - eapply grows_trans; [eapply Pm | eapply Pk]; eauto.
Qed.

Lemma monotone_update (f : @GreppoAppProxy A H -> @GreppoAppProxy A H) :
  (forall p, grows p (f p)) -> monotone (@update A H f).
Proof.
  intros F s r s' E. apply update_inv in E as (_ & -> & _ & _). apply F.
Qed.

Lemma monotone_for_each {X Y} (f : X -> @M A H Y) (l : list X) :
  (forall x, monotone (f x)) -> monotone (@for_each A H X Y f l).
Proof.
  intros F. induction l as [|x l IH]; cbn.
  - apply monotone_ret.
  - apply monotone_bind; [apply F | intros y].
    apply monotone_bind; [exact IH | intros ys]. apply monotone_ret.
Qed.

Lemma monotone_with {R T} (enter : @M A H R) (exit : R -> @M A H unit)
    (body : R -> @M A H T) :
  monotone enter -> (forall x, monotone (exit x)) ->
  (forall x, monotone (body x)) -> monotone (with_ enter exit body).
Proof.
  intros Pe Px Pb s r s' E.
  apply with_inv in E as [(e & E & _) | (x & s1 & rb & s2 & rx & E & B & X & _)].
  - eapply Pe; eauto.
  - eapply grows_trans; [eapply Pe; eauto |].
    eapply grows_trans; [eapply Pb; eauto | eapply Px; eauto].
Qed.

Ltac grown :=
  intros ?; repeat split; cbn;
  first [apply extends_refl | apply extends_snoc].

Ltac mono :=
  repeat first
    [ apply monotone_ret | apply monotone_raise | apply monotone_call
    | apply monotone_emit | apply monotone_get_proxy
    | apply monotone_update; grown
    | apply monotone_for_each; intros ?
    | apply monotone_with; [| intros ? | intros ?]
    | apply monotone_bind; [| intros ?] ].

Lemma monotone_reproject_bands ds range acc :
  monotone (reproject_bands C ds range acc).
Proof.
  intros s r s' E. apply reproject_bands_steps in E.
  eapply steps_grows; eauto.
Qed.

Lemma monotone_write_bands w i (bands : list (BandItem A)) :
  monotone (write_bands C w i bands).
Proof.
  intros s r s' E. apply write_bands_any in E as (evs & E & _).
  eapply steps_grows; eauto.
Qed.

Lemma monotone_resample_source path : monotone (resample_source C path).
Proof.
  intros s r s' E.
  apply resample_source_any in E as [[E _] | E]; eapply steps_grows; eauto.
Qed.

Lemma monotone_write_image m w (bands : list (BandItem A)) :
  monotone (write_image C m w bands).
Proof.
  unfold write_image, append_reference.
  apply monotone_bind; [apply monotone_write_bands | intros _]. mono.
Qed.

Lemma monotone_encode_and_register id t d v tr wd ht kw
    (bands : list (BandItem A)) :
  monotone (encode_and_register C id t d v tr wd ht kw bands).
Proof.
  unfold encode_and_register, enter_memfile, exit_memfile, enter_writer,
    exit_writer, acquire, release, append_raster_layer.
  apply monotone_with; [mono | intros m; mono | intros m].
  apply monotone_bind.
  - apply monotone_with; [mono | intros w; mono | intros w].
    apply monotone_write_image.
  - intros _. mono.
Qed.

Lemma monotone_raster_layer path t d v : monotone (raster_layer C path t d v).
Proof.
  unfold raster_layer.
  apply monotone_bind; [apply monotone_resample_source | intros r].
  apply monotone_encode_and_register.
Qed.

Lemma monotone_run_op (op : Op H) : monotone (run_op C op).
Proof.
  destruct op; cbn.
  - unfold discard, input_component, register_input. mono.
  - unfold ee_layer, append_tile_layer. mono.
  - unfold tile_layer, append_tile_layer. mono.
  - unfold base_layer. mono.
  - unfold overlay_layer. mono.
  - apply monotone_raster_layer.
  - unfold image_layer. mono. destruct (string_in _ _); mono.
  - unfold update_inputs. mono.
  - unfold discard, register_input. mono.
  - unfold discard, gpo_prepare_data. mono.
  - unfold discard, gpo_reference_data. mono. destruct (Nat.eqb _ _); mono.
Qed.

Lemma monotone_run_ops (ops : list (Op H)) : monotone (run_ops C ops).
Proof.
  induction ops as [|op ops IH]; cbn.
  - apply monotone_ret.
  - apply monotone_bind; [apply monotone_run_op | intros _; exact IH].
Qed.

End Growth.

(** ** What a successful operation adds *)

Section Footprint.

Context {A : Type} {NumA : Num A} {H : Host} (C : @Collaborators A H).

Implicit Types s : @State A H.

Ltac ok_inv :=
  repeat (cbv beta in *;
    match goal with
    | E : bind _ _ _ = (inr _, _) |- _ =>
        apply bind_ok_inv in E; destruct E as (? & ? & ? & ?)
    | E : call _ _ = (_, _) |- _ =>
        apply call_inv in E; destruct E as (? & ? & ?); subst
    | E : update _ _ = (_, _) |- _ =>
        apply update_inv in E; destruct E as (? & ? & ? & ?)
    | E : ret _ _ = (_, _) |- _ =>
        apply ret_inv in E; destruct E as [? ?]; subst
    | E : raise _ _ = (inr _, _) |- _ => discriminate E
    end).

Ltac sized :=
  unfold sizes;
  repeat match goal with Hp : proxy _ = _ |- _ => rewrite Hp; clear Hp end;
  cbn; rewrite ?length_app; cbn; rewrite ?Nat.add_0_r; reflexivity.

Lemma register_input_sizes x s y s' :
  register_input C x s = (inr y, s') ->
  sizes (proxy s') = vadd (sizes (proxy s)) [0; 0; 0; 0; 0; 0; 1]%nat.
Proof. unfold register_input. intros E. ok_inv. sized. Qed.

Lemma for_each_silent {X Y} (f : X -> @M A H Y) (l : list X) :
  (forall x s r s', f x s = (r, s') -> proxy s' = proxy s /\ log s' = log s) ->
  forall s r s',
    for_each f l s = (r, s') -> proxy s' = proxy s /\ log s' = log s.
Proof.
  intros F. induction l as [|x l IH]; cbn; intros s r s' E.
  - apply ret_inv in E as [_ ->]. auto.
  - apply bind_inv in E as [(e & E & _) | (y & s1 & E & K)].
    + eapply F; eauto.
    + apply F in E as [P1 L1].
      apply bind_inv in K as [(e & K & _) | (ys & s2 & K & K2)].
      * apply IH in K as [-> ->]. auto.
      * apply IH in K as [P2 L2]. apply ret_inv in K2 as [_ ->].
        rewrite P2, L2. auto.
Qed.

Lemma call_silent {T} (c : Ext H T) s r s' :
  call c s = (r, s') -> proxy s' = proxy s /\ log s' = log s.
Proof. intros E. apply call_inv in E as (w' & _ & ->). auto. Qed.

(** Building the payload never touches the proxy or the log. *)
Lemma gpo_prepare_data_proxy s r s' :
  gpo_prepare_data C s = (r, s') -> proxy s' = proxy s /\ log s' = log s.
Proof.
  unfold gpo_prepare_data. intros E.
  apply bind_inv in E as [(e & E & _) | (p & s1 & E & K)];
    [inversion E; subst; auto |].
  inversion E; subst s1 p. clear E.
  apply bind_inv in K as [(e & K & _) | (tiles & s2 & K & K2)].
  { eapply for_each_silent in K; [exact K |].
    intros x s0 r0 s0'. apply call_silent. }
  eapply for_each_silent in K as [P1 L1];
    [| intros x s0 r0 s0'; apply call_silent].
  assert (S2 : forall (x : @OverlayLayer A H) (sa : @State A H)
                      (ra : Exn + @OverlayLayerData A H) (sa' : @State A H),
             bind (call (gdf_to_json C (@ol_data A H x)))
               (fun j => ret (@mkOverlayLayerData A H x j)) sa = (ra, sa') ->
             proxy sa' = proxy sa /\ log sa' = log sa).
  { intros x sa ra sa' Ea.
    apply bind_inv in Ea as [(e' & Ea & _) | (j & sb & Ea & Eb)].
    - eapply call_silent; eauto.
    - apply call_silent in Ea as [Pa La]. apply ret_inv in Eb as [_ ->]. auto. }
  apply bind_inv in K2 as [(e & K2 & _) | (ovs & s3 & K2 & K3)].
  - apply (for_each_silent _ _ S2) in K2 as [-> ->]. auto.
  - apply (for_each_silent _ _ S2) in K2 as [P2 L2].
    apply ret_inv in K3 as [_ ->]. rewrite P2, L2. auto.
Qed.

Lemma run_op_sizes (op : Op H) s s' :
  run_op C op s = (inr tt, s') ->
  sizes (proxy s') = vadd (sizes (proxy s)) (op_growth op).
Proof.
  destruct op; cbn [run_op op_growth]; intros E.
  - unfold discard, input_component in E. ok_inv.
    match goal with R : register_input _ _ _ = _ |- _ =>
      apply register_input_sizes in R; rewrite R end.
    reflexivity.
  - unfold ee_layer, append_tile_layer in E. ok_inv. sized.
  - unfold tile_layer, append_tile_layer in E. ok_inv. sized.
  - unfold base_layer in E. ok_inv. sized.
  - unfold overlay_layer in E. ok_inv. sized.
  - apply raster_layer_summary in E
      as (ds & tr & wd & ht & bands & arr0 & t0 & rest & id & _ & _ & _ & _ & K).
    cbv zeta in K.
    destruct K as (m & w & d1 & d2 & wo & wo' & wr1 & wr1' & wc & wr2 & K).
    destruct K as (_ & _ & _ & _ & _ & Px). sized.
  - unfold image_layer in E. ok_inv.
    destruct (string_in _ _); ok_inv. sized.
  - unfold update_inputs in E. ok_inv. sized.
  - unfold discard in E. ok_inv.
    match goal with R : register_input _ _ _ = _ |- _ =>
      apply register_input_sizes in R; rewrite R end.
    reflexivity.
  - unfold discard in E. ok_inv.
    match goal with R : gpo_prepare_data _ _ = _ |- _ =>
      apply gpo_prepare_data_proxy in R; destruct R as [R _]; rewrite R end.
    unfold sizes. cbn. rewrite !Nat.add_0_r. reflexivity.
  - unfold discard, gpo_reference_data in E. ok_inv.
    match goal with R : get_proxy _ = _ |- _ => inversion R; subst end.
    destruct (Nat.eqb _ _); ok_inv; unfold sizes; cbn;
      rewrite !Nat.add_0_r; reflexivity.
Qed.

End Footprint.

(** ** How an ingestion can end *)

Section Outcomes.

Context {A : Type} {NumA : Num A} {H : Host} (C : @Collaborators A H).

Implicit Types s : @State A H.

Lemma write_image_proxy m w (bands : list (BandItem A)) s r s' :
  write_image C m w bands s = (r, s') ->
  (proxy s' = proxy s /\ exists e, r = inl e) \/
  (exists data, proxy s' = add_reference data (proxy s) /\ r = inr tt).
Proof.
  unfold write_image. intros E.
  apply bind_inv in E as [(e & E & ->) | ([] & s1 & E & K)].
  { left. apply write_bands_any in E as (ws & [P _] & _). eauto. }
  apply write_bands_any in E as (ws & [P _] & _).
  apply bind_inv in K as [(e & K & ->) | (data & s2 & K & K2)].
  { left. apply call_steps in K as [P2 _]. split; [congruence | eauto]. }
  right. apply call_steps in K as [P2 _].
  apply update_inv in K2 as (-> & P3 & _ & _).
  exists data. split; [rewrite P3, P2, P; reflexivity | reflexivity].
Qed.

Lemma writer_block_proxy m kw (bands : list (BandItem A)) s r s' :
  with_ (enter_writer C m kw) (exit_writer C)
    (fun dst_file => write_image C m dst_file bands) s = (r, s') ->
  (proxy s' = proxy s /\ exists e, r = inl e) \/
  (exists data, proxy s' = add_reference data (proxy s)).
Proof.
  intros E.
  apply with_inv in E as [(e & E & ->) | (w & s1 & rb & s2 & rx & E & B & X & R)].
  - left. apply acquire_inv in E
      as [(e' & w' & _ & _ & [P _] & _) | (x & w' & _ & D & _)]; [| discriminate].
    eauto.
  - apply acquire_inv in E
      as [(e' & w' & _ & D & _) | (x & w' & _ & _ & [P1 _] & _)]; [discriminate|].
    apply release_inv in X as [[P3 _] Cl].
    apply write_image_proxy in B as [[P2 [e ->]] | (data & P2 & ->)].
    + left. split; [congruence |]. destruct rx; subst r; eauto.
    + right. exists data. rewrite P3, P2, P1. reflexivity.
Qed.

(** The blocks leave the proxy in one of three states. *)
Lemma encode_and_register_proxy id t d v tr wd ht kw
    (bands : list (BandItem A)) s r s' :
  encode_and_register C id t d v tr wd ht kw bands s = (r, s') ->
  (proxy s' = proxy s /\ exists e, r = inl e) \/
  (exists data, proxy s' = add_reference data (proxy s) /\ exists e, r = inl e) \/
  (exists data l, proxy s' = add_raster_layer l (add_reference data (proxy s))).
Proof.
  unfold encode_and_register. intros E.
  apply with_inv in E as [(e & E & ->) | (m & s1 & rb & s2 & rx & E & B & X & R)].
  - left. apply acquire_inv in E
      as [(e' & w' & _ & _ & [P _] & _) | (x & w' & _ & D & _)]; [| discriminate].
    eauto.
  - apply acquire_inv in E
      as [(e' & w' & _ & D & _) | (x & w' & _ & _ & [P1 _] & _)]; [discriminate|].
    apply release_inv in X as [[P3 _] Cl].
    apply bind_inv in B as [(e & B & ->) | ([] & s3 & B & K)].
    + assert (Er : exists e0, r = inl e0) by (destruct rx; subst r; eauto).
      apply writer_block_proxy in B as [[P2 _] | (data & P2)].
      * left. split; [congruence | exact Er].
      * right. left. exists data. split; [| exact Er].
        rewrite P3, P2, P1. reflexivity.
    + apply writer_block_proxy in B as [[_ [e D]] | (data & P2)];
        [discriminate |].
      apply bind_inv in K as [(e & K & ->) | (data2 & s4 & K & K2)].
      * right. left. apply call_steps in K as [P4 _]. exists data. split.
        -- rewrite P3, P4, P2, P1. reflexivity.
        -- destruct rx; subst r; eauto.
      * right. right. apply call_steps in K as [P4 _].
        apply update_inv in K2 as (_ & P5 & _ & _).
        eexists data, _. rewrite P3, P5, P4, P2, P1. reflexivity.
Qed.

Lemma for_each_ok {X Y} (f : X -> @M A H Y) (l : list X) s ys s' :
  for_each f l s = (inr ys, s') ->
  Forall2 (fun x y => exists sa sb, f x sa = (inr y, sb)) l ys.
Proof.
  revert s ys s'. induction l as [|x l IH]; cbn; intros s ys s' E.
  - apply ret_inv in E as [E _]. inversion E. constructor.
  - apply bind_ok_inv in E as (y & s1 & E & K).
    apply bind_ok_inv in K as (ys' & s2 & K & K2).
    apply ret_inv in K2 as [K2 _]. inversion K2; subst.
    constructor; [exists s, s1; exact E | eapply IH; exact K].
Qed.

End Outcomes.

(** * Properties of the other methods *)

(** X1.  However a script of public operations ends, by running to its end
    or by an exception of any operation, every list of the proxy has only
    gained elements at its end: no operation removes, reorders or rewrites
    a layer, a reference buffer or a registered input. *)
Theorem operations_append_only {A} {NumA : Num A} {H : Host}
    (C : @Collaborators A H) (ops : list (Op H)) (s s' : @State A H)
    (r : Exn + unit) :
  run_ops C ops s = (r, s') -> grows (proxy s) (proxy s').
Proof. apply monotone_run_ops. Qed.

Lemma operations_append_only_witness :
  run_ops (Double.collaborators Double.script)
    (Double.session ++ [OpRasterLayer "zz.tif" "t" "d" true]) Double.start
  = (inl (Raised "RasterioIOError"),
     snd (run_ops (Double.collaborators Double.script)
            (Double.session ++ [OpRasterLayer "zz.tif" "t" "d" true])
            Double.start)) /\
  grows (proxy Double.start)
    (proxy (snd (run_ops (Double.collaborators Double.script)
                   (Double.session ++ [OpRasterLayer "zz.tif" "t" "d" true])
                   Double.start))).
Proof.
  assert (R : run_ops (Double.collaborators Double.script)
                (Double.session ++ [OpRasterLayer "zz.tif" "t" "d" true])
                Double.start
              = (inl (Raised "RasterioIOError"),
                 snd (run_ops (Double.collaborators Double.script)
                        (Double.session
                           ++ [OpRasterLayer "zz.tif" "t" "d" true])
                        Double.start)))
    by (vm_compute; reflexivity).
  split; [exact R |].
  exact (operations_append_only _ _ _ _ _ R).
Defined.

(** X2.  A public operation that returns adds exactly one element to each
    list of its kind and none to the others: the input components and
    [register_input] one registered input; [ee_layer] and [tile_layer] one
    tile layer; [base_layer], [overlay_layer], [image_layer] one layer of
    their list; [raster_layer] one raster layer and one reference buffer;
    [update_inputs], [gpo_prepare_data] and [gpo_reference_data] nothing.
    The elements already there stay where they are. *)
Theorem successful_operation_footprint {A} {NumA : Num A} {H : Host}
    (C : @Collaborators A H) (op : Op H) (s s' : @State A H) :
  run_op C op s = (inr tt, s') ->
  sizes (proxy s') = vadd (sizes (proxy s)) (op_growth op) /\
  grows (proxy s) (proxy s').
Proof.
  intros E. split.
  - apply (run_op_sizes C _ _ _ E).
  - apply (monotone_run_op C _ _ _ _ E).
Qed.

Lemma successful_operation_footprint_witness :
  run_op (Double.collaborators Double.script)
    (OpImageLayer "pic.JPG" "i" "d" true) Double.start
  = (inr tt,
     snd (run_op (Double.collaborators Double.script)
            (OpImageLayer "pic.JPG" "i" "d" true) Double.start)) /\
  sizes (proxy (snd (run_op (Double.collaborators Double.script)
                       (OpImageLayer "pic.JPG" "i" "d" true) Double.start)))
  = [0; 0; 0; 0; 1; 0; 0]%nat.
Proof.
  assert (R : run_op (Double.collaborators Double.script)
                (OpImageLayer "pic.JPG" "i" "d" true) Double.start
              = (inr tt,
                 snd (run_op (Double.collaborators Double.script)
                        (OpImageLayer "pic.JPG" "i" "d" true) Double.start)))
    by (vm_compute; reflexivity).
  split; [exact R |].
  destruct (successful_operation_footprint _ _ _ _ R) as [S _].
  rewrite S. reflexivity.
Defined.

(** X3.  However [raster_layer] ends, the proxy is in one of three states:
    unchanged (then the call raised); with one reference buffer appended
    and no layer (then the call raised: the failure came after the first
    read of the memory file); or with one reference buffer and one layer
    appended.  A layer is never appended without its reference buffer. *)
Theorem raster_layer_outcomes {A} {NumA : Num A} {H : Host}
    (C : @Collaborators A H) (path t d : string) (v : bool)
    (s s' : @State A H) (r : Exn + unit) :
  raster_layer C path t d v s = (r, s') ->
  (proxy s' = proxy s /\ exists e, r = inl e) \/
  (exists data,
      proxy s' = add_reference data (proxy s) /\ exists e, r = inl e) \/
  (exists data l, proxy s' = add_raster_layer l (add_reference data (proxy s))).
Proof.
  unfold raster_layer. intros E.
  apply bind_inv in E as [(e & E & ->) | (x & s1 & E & K)].
  - left. apply resample_source_any in E as [[[P _] _] | [P _]]; eauto.
  - apply resample_source_ok in E as [[P _] _].
    apply encode_and_register_proxy in K. rewrite P in K. exact K.
Qed.

Lemma raster_layer_outcomes_witness :
  raster_layer (Edge.failing_close (Double.collaborators Double.script))
    "a.tif" "t" "d" true Double.start
  = (inl (Raised "CPLE_AppDefinedError"),
     snd (raster_layer (Edge.failing_close (Double.collaborators Double.script))
            "a.tif" "t" "d" true Double.start)) /\
  raster_layers
    (proxy (snd (raster_layer
                   (Edge.failing_close (Double.collaborators Double.script))
                   "a.tif" "t" "d" true Double.start))) = [] /\
  List.length
    (raster_image_reference
       (proxy (snd (raster_layer
                      (Edge.failing_close (Double.collaborators Double.script))
                      "a.tif" "t" "d" true Double.start)))) = 1%nat.
Proof.
  assert (R : raster_layer
                (Edge.failing_close (Double.collaborators Double.script))
                "a.tif" "t" "d" true Double.start
              = (inl (Raised "CPLE_AppDefinedError"),
                 snd (raster_layer
                        (Edge.failing_close (Double.collaborators Double.script))
                        "a.tif" "t" "d" true Double.start)))
    by (vm_compute; reflexivity).
  split; [exact R |].
  destruct (raster_layer_outcomes _ _ _ _ _ _ _ _ R)
    as [[P _] | [(data & P & _) | (data & l & P)]].
  - exfalso. apply (f_equal raster_image_reference) in P.
    vm_compute in P. discriminate P.
  - rewrite P. split; reflexivity.
  - exfalso. apply (f_equal raster_layers) in P. vm_compute in P.
    discriminate P.
Defined.

(** X4.  A source that opens but has no band makes [raster_layer] raise
    [IndexError] at [dst_bands[0]]: the source has been opened, no memory
    file is created, and the proxy is unchanged. *)
Theorem no_band_is_index_error {A} {NumA : Num A} {H : Host}
    (C : @Collaborators A H) (path t d : string) (v : bool)
    (s : @State A H) (id : string) (ds : Dataset A)
    (grid : Affine.t A * Z * Z) (w1 w2 w3 : host_W H) :
  uuid4_hex C (world s) = (inr id, w1) ->
  rasterio_open C path w1 = (inr ds, w2) ->
  ds_count ds = 0%nat ->
  calculate_default_transform C (ds_crs ds) dst_crs (ds_width ds)
    (ds_height ds) (ds_bounds ds) w2 = (inr grid, w3) ->
  raster_layer C path t d v s
  = (inl IndexError,
     {| proxy := proxy s; world := w3;
        log := log s ++ [Opened (HSource path)] |}).
Proof.
  intros U O Z T.
  unfold raster_layer, resample_source, open_source, bind, call, emit, ret.
  rewrite U. cbn. rewrite O. cbn. rewrite T. cbn.
  destruct grid as [[tr wd] ht]. rewrite Z. cbn.
  unfold pad_bands. rewrite Z. reflexivity.
Qed.

Lemma no_band_witness :
  raster_layer (Double.collaborators Edge.script) "empty.tif" "t" "d" true
    Double.start
  = (inl IndexError,
     {| proxy := proxy Double.start;
        world := snd (uuid4_hex (Double.collaborators Edge.script)
                        (world Double.start));
        log := log Double.start ++ [Opened (HSource "empty.tif")] |}).
Proof.
  eapply (no_band_is_index_error (Double.collaborators Edge.script) "empty.tif"
            "t" "d" true Double.start "id0" (Double.dataset "empty.tif" 0)
            (Affine.identity, 10%Z, 10%Z)).
  - reflexivity.
  - reflexivity.
  - reflexivity.
  - reflexivity.
Defined.



(** ** The extension of a path *)

Lemma string_app_assoc (a b c : string) :
  ((a ++ b) ++ c)%string = (a ++ (b ++ c))%string.
Proof. induction a as [|x a IH]; cbn; [reflexivity | now rewrite IH]. Qed.

Lemma no_dot_app (a b : string) :
  no_dot (a ++ b)%string = no_dot a && no_dot b.
Proof.
  induction a as [|x a IH]; cbn; [reflexivity |].
  rewrite IH. apply andb_assoc.
Qed.

Lemma last_after_dot_plain (s acc : string) :
  no_dot s = true -> last_after_dot s acc = (acc ++ s)%string.
Proof.
  revert acc. induction s as [|ch s IH]; cbn; intros acc N.
  - induction acc as [|x acc IHa]; cbn; [reflexivity | now rewrite <- IHa].
  - apply andb_prop in N as [D N]. apply negb_true_iff in D. rewrite D.
    rewrite (IH _ N), string_app_assoc. reflexivity.
Qed.

Lemma last_after_dot_suffix (stem ext acc : string) :
  last_after_dot (stem ++ String "."%char ext)%string acc
  = last_after_dot ext "".
Proof.
  revert acc. induction stem as [|ch stem IH]; cbn; intros acc.
  - reflexivity.
  - destruct (Ascii.eqb ch "."%char); apply IH.
Qed.

Lemma no_dot_last_after_dot (s acc : string) :
  no_dot acc = true -> no_dot (last_after_dot s acc) = true.
Proof.
  revert acc. induction s as [|ch s IH]; cbn; intros acc N; [exact N |].
  destruct (Ascii.eqb ch "."%char) eqn:D.
  - apply IH. reflexivity.
  - apply IH. rewrite no_dot_app, N. cbn. now rewrite D.
Qed.

(** X6.  The extension [image_layer] tests, [file_path.split(".")[-1]], is
    what follows the last dot: for a path [stem.ext] with no dot in [ext]
    it is [ext], whatever [stem] holds; a path with no dot at all is its
    own extension (a file named [png] passes the test); and the
    extension never holds a dot. *)
Theorem extension_is_after_last_dot (stem ext : string) :
  no_dot ext = true ->
  last_after_dot (stem ++ String "."%char ext)%string "" = ext /\
  last_after_dot ext "" = ext /\
  forall path, no_dot (last_after_dot path "") = true.
Proof.
  intros N. split; [| split].
  - rewrite last_after_dot_suffix. apply (last_after_dot_plain ext "" N).
  - apply (last_after_dot_plain ext "" N).
  - intros path. apply no_dot_last_after_dot. reflexivity.
Qed.

Lemma extension_witness :
  no_dot "PNG" = true /\
  last_after_dot "archive.tar.PNG" "" = "PNG" /\
  last_after_dot "PNG" "" = "PNG".
Proof.
  split; [reflexivity |].
  destruct (extension_is_after_last_dot "archive.tar" "PNG" eq_refl)
    as (E1 & E2 & _).
  split; [exact E1 | exact E2].
Defined.

(** ** Image layers *)

(** X7.  When the lower-cased extension of the path is not [png], [jpg] or
    [jpeg], [image_layer] raises its [AssertionError] before the file is
    touched: only an identifier has been drawn, and the proxy and the log
    are unchanged. *)
Theorem image_layer_rejects_extension {A} {NumA : Num A} {H : Host}
    (C : @Collaborators A H) (path t d : string) (v : bool)
    (s : @State A H) (id : string) (w1 : host_W H) :
  string_in (lower (last_after_dot path "")) image_extensions = false ->
  uuid4_hex C (world s) = (inr id, w1) ->
  image_layer C path t d v s
  = (inl image_assertion, {| proxy := proxy s; world := w1; log := log s |}).
Proof.
  intros X U. unfold image_layer, bind, call. rewrite U.
  cbv beta iota zeta. unfold image_extensions in X. rewrite X. reflexivity.
Qed.

Lemma image_layer_rejects_witness :
  image_layer (Double.collaborators Double.script) "scan.png.txt" "t" "d" true
    Double.start
  = (inl image_assertion,
     {| proxy := proxy Double.start;
        world := snd (uuid4_hex (Double.collaborators Double.script)
                        (world Double.start));
        log := log Double.start |}).
Proof.
  apply (image_layer_rejects_extension (Double.collaborators Double.script)
           "scan.png.txt" "t" "d" true Double.start "id0").
  - reflexivity.
  - reflexivity.
Defined.

(** X8.  When the extension is accepted, [image_layer] does what the image
    library allows.  If the conversion returns bytes, one layer is
    appended to [image_layers]: its identifier is the one drawn, its URL
    is the [data:image/png;base64,] prefix followed by text that decodes
    to exactly those bytes, and its bounds are the same fixed rectangle
    for every image.  If the conversion raises, the exception goes on and
    the proxy is unchanged. *)
Theorem image_layer_accepted {A} {NumA : Num A} {H : Host}
    (C : @Collaborators A H) (path t d : string) (v : bool)
    (s : @State A H) (id : string) (w1 : host_W H) :
  string_in (lower (last_after_dot path "")) image_extensions = true ->
  uuid4_hex C (world s) = (inr id, w1) ->
  (forall jpeg w2,
      image_as_jpeg C path w1 = (inr jpeg, w2) ->
      exists s' l,
        image_layer C path t d v s = (inr tt, s') /\
        world s' = w2 /\ log s' = log s /\
        image_layers (proxy s') = image_layers (proxy s) ++ [l] /\
        il_id l = id /\ il_title l = t /\ il_description l = d /\
        il_visible l = v /\
        payload (il_url l) = Some jpeg /\
        il_bounds l
        = [[of_Q 14.760840184106792; of_Q 77.97900023926854];
           [of_Q 14.763995704693206; of_Q 77.98389492733145]]) /\
  (forall e w2,
      image_as_jpeg C path w1 = (inl e, w2) ->
      image_layer C path t d v s
      = (inl e, {| proxy := proxy s; world := w2; log := log s |})).
Proof.
  intros X U. unfold image_extensions in X. split.
  - intros jpeg w2 J. eexists _, _. split.
    + unfold image_layer, bind, call, update. rewrite U.
      cbv beta iota zeta. rewrite X. cbn [world proxy log]. rewrite J.
      reflexivity.
    + cbn [world proxy log image_layers il_id il_title il_description
             il_visible il_url il_bounds].
      repeat split. apply payload_data_uri.
  - intros e w2 J. unfold image_layer, bind, call. rewrite U.
    cbv beta iota zeta. rewrite X. cbn [world proxy log]. rewrite J.
    reflexivity.
Qed.

Lemma image_layer_accepted_witness :
  string_in (lower (last_after_dot "photo.JPeg" "")) image_extensions = true /\
  exists s' l,
    image_layer (Double.collaborators Double.script) "photo.JPeg" "t" "d" true
      Double.start = (inr tt, s') /\
    image_layers (proxy s') = [l] /\
    payload (il_url l) = Some ["J"; "P"; "G"]%byte.
Proof.
  split; [reflexivity |].
  destruct (image_layer_accepted (Double.collaborators Double.script)
              "photo.JPeg" "t" "d" true Double.start "id0" _
              eq_refl eq_refl) as [Ok _].
  destruct (Ok ["J"; "P"; "G"]%byte _ eq_refl)
    as (s' & l & E & _ & _ & L & _ & _ & _ & _ & P & _).
  exists s', l. split; [exact E |]. split; [exact L | exact P].
Defined.

(** ** The write loop and the padding *)

(** X9.  A write loop that completes has called the writer, for each entry
    of the band list in order, first [write] with plane 0 of the entry's
    array and then [write_colormap] with the two-entry colormap, both
    under the entry's position counted from 1; each call succeeded and
    ran in the world its predecessor left; the world after the loop is the
    one the last call left; the proxy is not touched. *)
Theorem write_loop_order {A} {NumA : Num A} {H : Host}
    (C : @Collaborators A H) (w i : nat) (bands : list (BandItem A))
    (s s' : @State A H) :
  write_bands C w i bands s = (inr tt, s') ->
  exists ps,
    map plane0_of bands = map Some ps /\
    written_through C w i ps (world s) (world s') /\
    proxy s' = proxy s.
Proof.
  intros E. apply write_bands_calls in E as (ps & P & [Px _] & Wt).
  exists ps. auto.
Qed.

Lemma write_loop_order_witness :
  write_bands (Double.collaborators Double.script) 4 0
    [Reprojected (mkNdArray "uint8" [[[1; 2]]]) Affine.identity;
     Reprojected (mkNdArray "uint8" [[[3; 4]]; [[9; 9]]]) Affine.identity]
    Double.start
  = (inr tt,
     snd (write_bands (Double.collaborators Double.script) 4 0
            [Reprojected (mkNdArray "uint8" [[[1; 2]]]) Affine.identity;
             Reprojected (mkNdArray "uint8" [[[3; 4]]; [[9; 9]]])
               Affine.identity]
            Double.start)) /\
  written_through (Double.collaborators Double.script) 4 0
    [[[1; 2]]; [[3; 4]]] Double.initial
    (world (snd (write_bands (Double.collaborators Double.script) 4 0
                   [Reprojected (mkNdArray "uint8" [[[1; 2]]]) Affine.identity;
                    Reprojected (mkNdArray "uint8" [[[3; 4]]; [[9; 9]]])
                      Affine.identity]
                   Double.start))) /\
  Double.pending
    (world (snd (write_bands (Double.collaborators Double.script) 4 0
                   [Reprojected (mkNdArray "uint8" [[[1; 2]]]) Affine.identity;
                    Reprojected (mkNdArray "uint8" [[[3; 4]]; [[9; 9]]])
                      Affine.identity]
                   Double.start)))
  = [[[1; 2]]; [[3; 4]]].
Proof.
  assert (R : write_bands (Double.collaborators Double.script) 4 0
                [Reprojected (mkNdArray "uint8" [[[1; 2]]]) Affine.identity;
                 Reprojected (mkNdArray "uint8" [[[3; 4]]; [[9; 9]]])
                   Affine.identity]
                Double.start
              = (inr tt,
                 snd (write_bands (Double.collaborators Double.script) 4 0
                        [Reprojected (mkNdArray "uint8" [[[1; 2]]])
                           Affine.identity;
                         Reprojected (mkNdArray "uint8" [[[3; 4]]; [[9; 9]]])
                           Affine.identity]
                        Double.start)))
    by (vm_compute; reflexivity).
  split; [exact R |].
  destruct (write_loop_order _ _ _ _ _ _ R) as (ps & P & Wt & _).
  cbn in P. destruct ps as [|p1 [|p2 [|p3 ps]]]; try discriminate.
  inversion P; subst. split; [exact Wt |]. vm_compute; reflexivity.
Defined.

Lemma fold_left_snoc {X Y} (x : X) (l : list Y) (acc : list X) :
  fold_left (fun a (_ : Y) => a ++ [x]) l acc = acc ++ repeat x (List.length l).
Proof.
  revert acc. induction l as [|y l IH]; cbn; intros acc.
  - now rewrite app_nil_r.
  - rewrite IH, <- app_assoc. reflexivity.
Qed.

(** X10.  The padding step keeps the list it is given and adds at its end
    copies of the unreprojected source band 1: none when the band count
    is 3, otherwise as many as the list is short of the band count.  Its
    result is never shorter than its input, and for a band count other
    than 3 never shorter than the band count. *)
Theorem padding_closed_form {A} (ds : Dataset A) (bands : list (BandItem A)) :
  pad_bands ds bands
  = bands ++ repeat (SourceBand (rasterio_band ds 1))
               (if Nat.eqb (ds_count ds) 3 then 0
                else ds_count ds - List.length bands) /\
  List.length (pad_bands ds bands)
  = (if Nat.eqb (ds_count ds) 3 then List.length bands
     else Nat.max (List.length bands) (ds_count ds)).
Proof.
  assert (E : pad_bands ds bands
              = bands ++ repeat (SourceBand (rasterio_band ds 1))
                           (if Nat.eqb (ds_count ds) 3 then 0
                            else ds_count ds - List.length bands)).
  { unfold pad_bands. destruct (Nat.eqb (ds_count ds) 3); cbn [negb].
    - cbn. now rewrite app_nil_r.
    - rewrite fold_left_snoc, length_seq. reflexivity. }
  split; [exact E |].
  rewrite E, length_app, repeat_length.
  destruct (Nat.eqb (ds_count ds) 3); lia.
Qed.

(** ** The payload *)

Lemma overlay_rows {A} {H : Host} (C : @Collaborators A H)
    (l : list (@OverlayLayer A H)) (ys : list (@OverlayLayerData A H)) :
  Forall2
    (fun x y =>
       exists sa sb : @State A H,
         bind (call (gdf_to_json C (ol_data H x)))
           (fun j => ret (mkOverlayLayerData H x j)) sa = (inr y, sb))
    l ys ->
  map (@old_layer A H) ys = l /\
  Forall (fun o => exists w w',
              gdf_to_json C (ol_data H (old_layer H o)) w
              = (inr (old_data H o), w')) ys.
Proof.
  induction 1 as [|x y l ys (sa & sb & E) F [IHm IHf]].
  - split; constructor.
  - apply bind_ok_inv in E as (j & s1 & E & K).
    apply call_inv in E as (w' & E & ->).
    apply ret_inv in K as [K _]. inversion K; subst y. cbn. split.
    + now rewrite IHm.
    + constructor; [cbn; eauto | exact IHf].
Qed.

(** X12.  [gpo_prepare_data] never changes the proxy or the log, whether
    it returns or raises.  When it returns, the payload lists the layers
    and inputs of the proxy one for one and in order: the base, raster and
    image layers as they are, one converted entry per tile layer, one
    entry per overlay layer holding that layer and the JSON of its data,
    and one dict per registered input. *)
Theorem payload_mirrors_proxy {A} {NumA : Num A} {H : Host}
    (C : @Collaborators A H) (s s' : @State A H) (r : Exn + AppOutput H) :
  gpo_prepare_data C s = (r, s') ->
  proxy s' = proxy s /\ log s' = log s /\
  forall out,
    r = inr out ->
    base_layer_info H out = base_layers (proxy s) /\
    raster_layer_data H out = raster_layers (proxy s) /\
    image_layer_data H out = image_layers (proxy s) /\
    component_info H out = map (asdict C) (registered_inputs (proxy s)) /\
    Forall2 (fun l d => exists w w', tile_layer_dict C l w = (inr d, w'))
      (tile_layers (proxy s)) (tile_layer_info H out) /\
    map (@old_layer A H) (overlay_layer_data H out) = overlay_layers (proxy s) /\
    Forall (fun o => exists w w',
                gdf_to_json C (ol_data H (old_layer H o)) w
                = (inr (old_data H o), w'))
      (overlay_layer_data H out).
Proof.
  intros E. destruct (gpo_prepare_data_proxy C _ _ _ E) as [P L].
  split; [exact P |]. split; [exact L |].
  intros out ->. unfold gpo_prepare_data in E.
  apply bind_ok_inv in E as (p & s1 & E & K). inversion E; subst p s1. clear E.
  apply bind_ok_inv in K as (tiles & s2 & K & K2).
  apply for_each_ok in K.
  apply bind_ok_inv in K2 as (ovs & s3 & K2 & K3).
  apply for_each_ok in K2. apply overlay_rows in K2 as [Om Of].
  apply ret_inv in K3 as [K3 _]. inversion K3; subst out. cbn.
  repeat split; auto.
  clear - K. induction K as [|x y l ys (sa & sb & E) F IH]; constructor; auto.
  apply call_inv in E as (w' & E & _). eauto.
Qed.

Lemma payload_mirrors_proxy_witness :
  exists out,
    gpo_prepare_data (Double.collaborators Double.script)
      (mkState
         (mkProxy Double.host [mkBaseLayer "id" "osm" true "u" [] "at"] [tt; tt]
            [] [] [] [] [tt] [])
         Double.initial [])
    = (inr out,
       mkState
         (mkProxy Double.host [mkBaseLayer "id" "osm" true "u" [] "at"] [tt; tt]
            [] [] [] [] [tt] [])
         Double.initial []) /\
    base_layer_info Double.host out = [mkBaseLayer "id" "osm" true "u" [] "at"] /\
    List.length (tile_layer_info Double.host out) = 2%nat.
Proof.
  exists (mkAppOutput Double.host [mkBaseLayer "id" "osm" true "u" [] "at"]
            [tt; tt] [] [] [] [tt]).
  assert (R : gpo_prepare_data (Double.collaborators Double.script)
                (mkState
                   (mkProxy Double.host
                      [mkBaseLayer "id" "osm" true "u" [] "at"] [tt; tt]
                      [] [] [] [] [tt] [])
                   Double.initial [])
              = (inr (mkAppOutput Double.host
                        [mkBaseLayer "id" "osm" true "u" [] "at"]
                        [tt; tt] [] [] [] [tt]),
                 mkState
                   (mkProxy Double.host
                      [mkBaseLayer "id" "osm" true "u" [] "at"] [tt; tt]
                      [] [] [] [] [tt] [])
                   Double.initial []))
    by reflexivity.
  split; [exact R |].
  destruct (payload_mirrors_proxy _ _ _ _ R) as (_ & _ & Out).
  destruct (Out _ eq_refl) as (B & _ & _ & _ & T & _).
  split; [exact B |].
  rewrite <- (Forall2_length T). reflexivity.
Defined.
